(** * go-memory-pattern: value and pointer semantics of the Student examples

    A shallow embedding of the three example files
    [examples/types.go] (record type, averages, constructors, performance
    test), [examples/values-vs-pointers.go] and
    [examples/escape-analysis.go].

    Go values are modelled as the code has them:
    - [int64] and [int] are integers of 64 bits, carried in [Z] with the
      wrap-around written out ([wrap64]);
    - [float64] is the kernel's IEEE 754 binary64 type [float];
    - a variable whose address is taken, a slice's backing array and every
      value reached through a pointer live in a typed heap of cells; a
      pointer is [option nat] ([None] is [nil]);
    - a slice is its header (base address, length, capacity);
    - a function is a computation in the monad [M] of state and panic;
    - [fmt.Printf] and [fmt.Println] append an event carrying the format
      and the argument values to the standard output of the state. *)

From Stdlib Require Import ZArith PrimFloat Uint63.
From stdpp Require Import base list strings pretty.

Local Open Scope Z_scope.

(** ** Machine integers and float64 *)

Definition wrap64 (z : Z) : Z := (z + 2 ^ 63) mod 2 ^ 64 - 2 ^ 63.

Definition wrapu64 (z : Z) : Z := z mod 2 ^ 64.

(** [float64(i)] for a signed 64-bit [i]. *)
Definition float64_of_int (z : Z) : float :=
  if z =? - 2 ^ 63 then (- 9223372036854775808)%float
  else if z <? 0 then PrimFloat.opp (PrimFloat.of_uint63 (Uint63.of_Z (- z)))
  else PrimFloat.of_uint63 (Uint63.of_Z z).

(** ** types.go: the Student record *)

Record Student : Type := mkStudent {
  ID : Z;
  Name : string;
  Grade : float;
  Age : Z
}.

Definition set_ID (v : Z) (s : Student) : Student :=
  mkStudent v (Name s) (Grade s) (Age s).
Definition set_Name (v : string) (s : Student) : Student :=
  mkStudent (ID s) v (Grade s) (Age s).
Definition set_Grade (v : float) (s : Student) : Student :=
  mkStudent (ID s) (Name s) v (Age s).
Definition set_Age (v : Z) (s : Student) : Student :=
  mkStudent (ID s) (Name s) (Grade s) v.

(** The zero value of the record, as [make] fills fresh cells. *)
Definition zero_Student : Student := mkStudent 0 "" 0%float 0.

(** ** Memory *)

(** A pointer [*Student]: [None] is [nil], [Some l] the address of cell [l]. *)
Definition ptr : Type := option nat.

(** A slice header. The [nil] slice has length and capacity zero. *)
Record slice : Type := mkSlice { base : nat; len : nat; cap : nat }.

Definition nil_slice : slice := mkSlice 0 0 0.

(** Arguments handed to [fmt]; a pointer is printed through its pointee. *)
Inductive value : Type :=
  | VInt (z : Z)
  | VStr (s : string)
  | VFloat (f : float)
  | VBool (b : bool)
  | VStudent (s : Student)
  | VStudentPtr (s : option Student)
  | VFloats (l : list float)
  | VStudents (l : list Student).

Inductive event : Type :=
  | Printf (format : string) (args : list value)
  | Println (args : list value).

Record state : Type := mkState {
  student_heap : list Student; (* cells of type Student *)
  float_heap : list float;     (* cells of type float64 *)
  slice_heap : list slice;     (* addressable variables of type []Student *)
  globalStudent : ptr;         (* var globalStudent *Student *)
  stdout : list event;         (* what was printed, oldest first *)
  reads : nat                  (* readings of clock and allocator so far *)
}.

Definition init_state : state := mkState [] [] [] None [] 0.

Definition with_student_heap (v : list Student) (st : state) : state :=
  mkState v (float_heap st) (slice_heap st) (globalStudent st) (stdout st) (reads st).
Definition with_float_heap (v : list float) (st : state) : state :=
  mkState (student_heap st) v (slice_heap st) (globalStudent st) (stdout st) (reads st).
Definition with_slice_heap (v : list slice) (st : state) : state :=
  mkState (student_heap st) (float_heap st) v (globalStudent st) (stdout st) (reads st).
Definition with_globalStudent (v : ptr) (st : state) : state :=
  mkState (student_heap st) (float_heap st) (slice_heap st) v (stdout st) (reads st).
Definition with_stdout (v : list event) (st : state) : state :=
  mkState (student_heap st) (float_heap st) (slice_heap st) (globalStudent st) v (reads st).
Definition with_reads (v : nat) (st : state) : state :=
  mkState (student_heap st) (float_heap st) (slice_heap st) (globalStudent st) (stdout st) v.

(** What the Go runtime decides and the program only observes: the capacity
    chosen when [append] must grow a backing array of capacity [c] to hold
    [n] elements, the duration [time.Since] reports between two readings of
    the clock and the [TotalAlloc] counter [runtime.ReadMemStats] reports at
    the k-th reading. *)
Record runtime : Type := mkRuntime {
  growcap : nat -> nat -> nat;
  elapsed : nat -> nat -> Z;
  total_alloc : nat -> Z
}.

(** ** The monad of state and panic *)

Definition M (A : Type) : Type := state -> option (A * state).

Definition ret {A} (a : A) : M A := fun st => Some (a, st).

Definition bind {A B} (m : M A) (k : A -> M B) : M B :=
  fun st => match m st with
            | Some (a, st') => k a st'
            | None => None
            end.

Definition panic {A} : M A := fun _ => None.

Declare Scope go_scope.
Delimit Scope go_scope with go.
Notation "'do' x <- m ; k" := (bind m (fun x => k))
  (at level 10, x name, m at level 100, k at level 200,
   format "'[v' 'do'  x  <-  m ; '/' k ']'") : go_scope.
Notation "m ;; k" := (bind m (fun _ => k))
  (at level 100, k at level 200, right associativity) : go_scope.
Local Open Scope go_scope.

Definition get : M state := fun st => Some (st, st).
Definition put (st : state) : M unit := fun _ => Some (tt, st).

Definition printf (format : string) (args : list value) : M unit :=
  fun st => Some (tt, with_stdout (stdout st ++ [Printf format args]) st).

Definition println (args : list value) : M unit :=
  fun st => Some (tt, with_stdout (stdout st ++ [Println args]) st).

(** *** Student cells *)

(** [&v] for a Student variable that escapes: a fresh cell. *)
Definition new_Student (s : Student) : M ptr :=
  fun st => Some (Some (length (student_heap st)),
                  with_student_heap (student_heap st ++ [s]) st).

(** [*p]; dereferencing [nil] panics. *)
Definition deref (p : ptr) : M Student :=
  fun st => match p with
            | Some l => match student_heap st !! l with
                        | Some s => Some (s, st)
                        | None => None
                        end
            | None => None
            end.

(** [*p = s]. *)
Definition assign (p : ptr) (s : Student) : M unit :=
  fun st => match p with
            | Some l => if decide (l < length (student_heap st))%nat
                        then Some (tt, with_student_heap (<[l := s]> (student_heap st)) st)
                        else None
            | None => None
            end.

(** [p.Grade = g] and [p.Name = n]: one field of the pointee is written. *)
Definition assign_Grade (p : ptr) (g : float) : M unit :=
  do s <- deref p; assign p (set_Grade g s).

Definition assign_Name (p : ptr) (n : string) : M unit :=
  do s <- deref p; assign p (set_Name n s).

Definition is_nil (p : ptr) : bool :=
  match p with None => true | Some _ => false end.

(** *** Slices *)

(** The cells a slice header designates in a heap of cells. *)
Definition elems {A} (heap : list A) (sl : slice) : list A :=
  take (len sl) (drop (base sl) heap).

(** A header is valid in a heap when its whole capacity lies inside it. *)
Definition valid_slice {A} (heap : list A) (sl : slice) : Prop :=
  (len sl <= cap sl)%nat /\ (base sl + cap sl <= length heap)%nat.

(** The cells of a header, up to its length and up to its capacity, lie in
    the heap (a header that [append] made keeps this whatever capacity the
    runtime chose). *)
Definition in_heap {A} (heap : list A) (sl : slice) : Prop :=
  (base sl + len sl <= length heap)%nat /\ (base sl + cap sl <= length heap)%nat.

(** [append] on a full backing array: a fresh array of the capacity the
    runtime chose receives the old elements and the new one. *)
Definition grow {A} (zero : A) (c : nat) (heap : list A) (sl : slice) (x : A)
  : list A * slice :=
  (heap ++ elems heap sl ++ [x] ++ replicate (c - S (len sl)) zero,
   mkSlice (length heap) (S (len sl)) c).

(** [append(sl, x)] on a heap of cells: in place when capacity is left. *)
Definition append_cells {A} (zero : A) (c : nat) (heap : list A) (sl : slice) (x : A)
  : option (list A * slice) :=
  if decide (len sl < cap sl)%nat then
    if decide (base sl + len sl < length heap)%nat
    then Some (<[(base sl + len sl)%nat := x]> heap,
               mkSlice (base sl) (S (len sl)) (cap sl))
    else None
  else Some (grow zero c heap sl x).

(** [sl[i]] on a heap of cells; an index out of range panics. *)
Definition index_cells {A} (heap : list A) (sl : slice) (i : nat) : option A :=
  if decide (i < len sl)%nat then heap !! (base sl + i)%nat else None.

(** [sl[i] = x] on a heap of cells. *)
Definition update_cells {A} (heap : list A) (sl : slice) (i : nat) (x : A)
  : option (list A) :=
  if decide (i < len sl)%nat then
    if decide (base sl + i < length heap)%nat
    then Some (<[(base sl + i)%nat := x]> heap) else None
  else None.

Definition lift {A} (o : option A) : M A :=
  fun st => match o with Some a => Some (a, st) | None => None end.

(** [students[i]], [students[i] = s], [&students[i]]. *)
Definition index_Student (sl : slice) (i : nat) : M Student :=
  do st <- get; lift (index_cells (student_heap st) sl i).

Definition update_Student (sl : slice) (i : nat) (s : Student) : M unit :=
  do st <- get;
  do h <- lift (update_cells (student_heap st) sl i s);
  put (with_student_heap h st).

Definition addr_Student (sl : slice) (i : nat) : M ptr :=
  if decide (i < len sl)%nat then ret (Some (base sl + i)%nat) else panic.

(** [make([]Student, n)] and the literal [[]Student{...}]. *)
Definition make_Students (n : nat) : M slice :=
  do st <- get;
  put (with_student_heap (student_heap st ++ replicate n zero_Student) st);;
  ret (mkSlice (length (student_heap st)) n n).

Definition literal_Students (l : list Student) : M slice :=
  do st <- get;
  put (with_student_heap (student_heap st ++ l) st);;
  ret (mkSlice (length (student_heap st)) (length l) (length l)).

(** [grades[i]], [grades[i] = x], [make([]float64, 0, c)], a literal. *)
Definition index_float (sl : slice) (i : nat) : M float :=
  do st <- get; lift (index_cells (float_heap st) sl i).

Definition update_float (sl : slice) (i : nat) (x : float) : M unit :=
  do st <- get;
  do h <- lift (update_cells (float_heap st) sl i x);
  put (with_float_heap h st).

Definition make_floats (c : nat) : M slice :=
  do st <- get;
  put (with_float_heap (float_heap st ++ replicate c 0%float) st);;
  ret (mkSlice (length (float_heap st)) 0 c).

Definition literal_floats (l : list float) : M slice :=
  do st <- get;
  put (with_float_heap (float_heap st ++ l) st);;
  ret (mkSlice (length (float_heap st)) (length l) (length l)).

(** [&v], [*p] and [*p = sl] for a slice variable [v] and a pointer [p] of
    type [*[]Student]. *)
Definition new_slice (sl : slice) : M (option nat) :=
  do st <- get;
  put (with_slice_heap (slice_heap st ++ [sl]) st);;
  ret (Some (length (slice_heap st))).

Definition deref_slice (p : option nat) : M slice :=
  do st <- get; lift (l ← p; slice_heap st !! l).

Definition assign_slice (p : option nat) (sl : slice) : M unit :=
  do st <- get;
  match p with
  | Some l => if decide (l < length (slice_heap st))%nat
              then put (with_slice_heap (<[l := sl]> (slice_heap st)) st)
              else panic
  | None => panic
  end.

(** What [fmt] reads when it prints a pointer, a slice of floats or a
    slice of students. *)
Definition pointee (p : ptr) : M (option Student) :=
  match p with
  | Some _ => do s <- deref p; ret (Some s)
  | None => ret None
  end.

Definition read_floats (sl : slice) : M (list float) :=
  do st <- get; ret (elems (float_heap st) sl).

Definition read_Students (sl : slice) : M (list Student) :=
  do st <- get; ret (elems (student_heap st) sl).

(** *** Loops *)

(** [n] iterations from index [i], threading the variables the body
    updates. *)
Fixpoint loop {A} (n : nat) (i : nat) (body : nat -> A -> M A) (a : A) : M A :=
  match n with
  | O => ret a
  | S n' => do a' <- body i a; loop n' (S i) body a'
  end.

(** [for i := 0; i < n; i++ { body }] for a body that assigns neither [i]
    nor [n]. *)
Definition for_lt (n : Z) (body : Z -> M unit) : M unit :=
  loop (Z.to_nat n) 0 (fun i _ => body (Z.of_nat i)) tt.

(** [for i, x := range sl { body }]: the header is read once, then each
    element is copied into [x]. *)
Definition range_Students {A} (sl : slice) (body : nat -> Student -> A -> M A) (a : A)
  : M A :=
  loop (len sl) 0 (fun i a => do x <- index_Student sl i; body i x a) a.

Definition range_floats {A} (sl : slice) (body : nat -> float -> A -> M A) (a : A)
  : M A :=
  loop (len sl) 0 (fun i a => do x <- index_float sl i; body i x a) a.

(** *** Clock and allocator *)

(** [runtime.GC()]: unreachable cells are not observable by the program. *)
Definition runtime_GC : M unit := ret tt.

(** [time.Now()]: the reading is identified by its number. *)
Definition time_Now : M nat :=
  do st <- get; put (with_reads (S (reads st)) st);; ret (reads st).

(** ** types.go: functions that depend on nothing the runtime decides *)

(** calculateAverageStack processes data without heap allocations. *)
Definition calculateAverageStack (students : slice) : M float :=
  do r <- range_Students students
            (fun _ student '(total, count) =>
               ret ((total + Grade student)%float, wrap64 (count + 1)))
            (0%float, 0);
  let '(total, count) := r in
  if count =? 0 then ret 0%float
  else ret (total / float64_of_int count)%float.

(** createStudentByValue returns a value, not pointer. *)
Definition createStudentByValue (id : Z) (name : string) (grade : float) : Student :=
  mkStudent id name grade (wrap64 (18 + wrap64 (Z.rem id 10))).

(** createStudentByPointer returns pointer, forces heap allocation. *)
Definition createStudentByPointer (id : Z) (name : string) (grade : float) : M ptr :=
  let student := mkStudent id name grade (wrap64 (18 + wrap64 (Z.rem id 10))) in
  new_Student student.

Section Runtime.

Context (rt : runtime).

(** [runtime.ReadMemStats(&m)], of which only [m.TotalAlloc] is used, and
    [time.Since(start)]. *)
Definition ReadMemStats : M Z :=
  do st <- get;
  put (with_reads (S (reads st)) st);;
  ret (wrapu64 (total_alloc rt (reads st))).

Definition time_Since (start : nat) : M Z :=
  do st <- get;
  put (with_reads (S (reads st)) st);;
  ret (wrap64 (elapsed rt start (reads st))).

(** [append(grades, x)] and [append(students, s)]. *)
Definition append_float (sl : slice) (x : float) : M slice :=
  do st <- get;
  do r <- lift (append_cells 0%float (growcap rt (cap sl) (S (len sl)))
                  (float_heap st) sl x);
  put (with_float_heap r.1 st);; ret r.2.

Definition append_Student (sl : slice) (x : Student) : M slice :=
  do st <- get;
  do r <- lift (append_cells zero_Student (growcap rt (cap sl) (S (len sl)))
                  (student_heap st) sl x);
  put (with_student_heap r.1 st);; ret r.2.

(** calculateAverageHeap creates intermediate slice (heap allocations). *)
Definition calculateAverageHeap (students : slice) : M float :=
  let grades := nil_slice in
  do grades <- range_Students students
                 (fun _ student grades => append_float grades (Grade student))
                 grades;
  do total <- range_floats grades
                (fun _ grade total => ret (total + grade)%float) 0%float;
  ret (total / float64_of_int (Z.of_nat (len grades)))%float.

(** calculateAverageOptimized pre-allocates to minimize heap usage. *)
Definition calculateAverageOptimized (students : slice) : M float :=
  do grades <- make_floats (len students);
  do grades <- range_Students students
                 (fun _ student grades => append_float grades (Grade student))
                 grades;
  do total <- range_floats grades
                (fun _ grade total => ret (total + grade)%float) 0%float;
  ret (total / float64_of_int (Z.of_nat (len grades)))%float.

Definition iterations : Z := 50000.

Definition runPerformanceTest : M unit :=
  (* Create test data *)
  do students <- make_Students 100;
  loop (len students) 0
    (fun i _ =>
       update_Student students i
         (mkStudent (wrap64 (Z.of_nat i))
                    ("Student" +:+ pretty i)
                    (60 + float64_of_int (Z.rem (Z.of_nat i) 40))%float
                    (wrap64 (18 + Z.rem (Z.of_nat i) 10)))) tt;;
  printf "Testing with %d students, %d iterations each\n"
    [VInt (Z.of_nat (len students)); VInt iterations];;
  println [VStr "=================================================="];;
  (* Test stack approach *)
  runtime_GC;;
  do m1 <- ReadMemStats;
  do start <- time_Now;
  for_lt iterations (fun _ => do _ <- calculateAverageStack students; ret tt);;
  do stackTime <- time_Since start;
  do m2 <- ReadMemStats;
  let stackAllocs := wrapu64 (m2 - m1) in
  (* Test heap approach *)
  runtime_GC;;
  do m1 <- ReadMemStats;
  do start <- time_Now;
  for_lt iterations (fun _ => do _ <- calculateAverageHeap students; ret tt);;
  do heapTime <- time_Since start;
  do m2 <- ReadMemStats;
  let heapAllocs := wrapu64 (m2 - m1) in
  (* Test optimized approach *)
  runtime_GC;;
  do m1 <- ReadMemStats;
  do start <- time_Now;
  for_lt iterations (fun _ => do _ <- calculateAverageOptimized students; ret tt);;
  do optimizedTime <- time_Since start;
  do m2 <- ReadMemStats;
  let optimizedAllocs := wrapu64 (m2 - m1) in
  (* Display results *)
  printf "Stack approach:     %8v  %10d bytes\n" [VInt stackTime; VInt stackAllocs];;
  printf "Heap approach:      %8v  %10d bytes\n" [VInt heapTime; VInt heapAllocs];;
  printf "Optimized approach: %8v  %10d bytes\n"
    [VInt optimizedTime; VInt optimizedAllocs];;
  if (0 <? stackTime) && (0 <? heapTime) then
    printf "\nPerformance improvements:\n" [];;
    printf "• Stack is %.1fx faster than heap\n"
      [VFloat (float64_of_int heapTime / float64_of_int stackTime)%float];;
    if 0 <? optimizedTime then
      printf "• Optimized is %.1fx faster than heap\n"
        [VFloat (float64_of_int heapTime / float64_of_int optimizedTime)%float]
    else ret tt
  else ret tt.

(** runStackVsHeapDemo demonstrates the performance differences. *)
Definition runStackVsHeapDemo : M unit :=
  println [VStr "Stack vs Heap Performance Comparison"];;
  println [VStr "===================================="];;
  println [VStr "\n--- Creating Students ---"];;
  let stackStudent := createStudentByValue 1 "Alice" 85 in
  printf "Stack student: %+v\n" [VStudent stackStudent];;
  do heapStudent <- createStudentByPointer 2 "Bob" 92;
  do v <- pointee heapStudent;
  printf "Heap student: %+v\n" [VStudentPtr v];;
  println [VStr "\n--- Performance Test ---"];;
  runPerformanceTest;;
  println [VStr "\n=== Key Takeaways ==="];;
  println [VStr "• Stack allocation is much faster than heap"];;
  println [VStr "• Avoid creating unnecessary intermediate slices"];;
  println [VStr "• Pre-allocate when you know the size"];;
  println [VStr "• Return values when possible, pointers when necessary"].

End Runtime.

(** ** values-vs-pointers.go *)

(** modifyStudentValue works with a copy - original unchanged. *)
Definition modifyStudentValue (student : Student) : M unit :=
  let student := set_Grade 100 student in
  let student := set_Name ("Modified " +:+ Name student) student in
  printf "Inside modifyStudentValue: %+v\n" [VStudent student].

(** calculateGPAValue takes copies. *)
Definition calculateGPAValue (student1 student2 student3 : Student) : float :=
  let total := (Grade student1 + Grade student2 + Grade student3)%float in
  (total / 3)%float.

(** createStudentCopy demonstrates making copies. *)
Definition createStudentCopy (template : Student) (newName : string) (newID : Z)
  : Student :=
  let newStudent := template in
  let newStudent := set_Name newName newStudent in
  let newStudent := set_ID newID newStudent in
  newStudent.

(** modifyStudentPointer works with the original - changes persist. *)
Definition modifyStudentPointer (student : ptr) : M unit :=
  if is_nil student then ret tt
  else
    assign_Grade student 100;;
    do s <- deref student;
    assign_Name student ("Modified " +:+ Name s);;
    do s <- deref student;
    printf "Inside modifyStudentPointer: %+v\n" [VStudent s].

(** calculateGPAPointer takes pointers. *)
Definition calculateGPAPointer (student1 student2 student3 : ptr) : M float :=
  if is_nil student1 || is_nil student2 || is_nil student3 then ret 0%float
  else
    do s1 <- deref student1;
    do s2 <- deref student2;
    do s3 <- deref student3;
    let total := (Grade s1 + Grade s2 + Grade s3)%float in
    ret (total / 3)%float.

(** updateGradeInPlace modifies the original student. *)
Definition updateGradeInPlace (student : ptr) (newGrade : float) : M unit :=
  if is_nil student then ret tt
  else assign_Grade student newGrade.

(** modifyGradesSlice - slices are reference types. *)
Definition modifyGradesSlice (grades : slice) : M unit :=
  loop (len grades) 0
    (fun i _ => do x <- index_float grades i;
                update_float grades i (x + 5)%float) tt;;
  do v <- read_floats grades;
  printf "Inside modifyGradesSlice: %v\n" [VFloats v].

Definition demonstrateValueBehavior : M unit :=
  println [VStr "=== VALUE BEHAVIOR ==="];;
  let original := mkStudent 1 "Alice" 85 20 in
  printf "Original student: %+v\n" [VStudent original];;
  modifyStudentValue original;;
  printf "After modifyStudentValue: %+v\n" [VStudent original];;
  let copy := createStudentCopy original "Alice Clone" 2 in
  printf "Created copy: %+v\n" [VStudent copy];;
  printf "Original still: %+v\n" [VStudent original].

Definition demonstratePointerBehavior : M unit :=
  println [VStr "\n=== POINTER BEHAVIOR ==="];;
  do original <- new_Student (mkStudent 3 "Bob" 78 21);
  do v <- deref original;
  printf "Original student: %+v\n" [VStudent v];;
  modifyStudentPointer original;;
  do v <- deref original;
  printf "After modifyStudentPointer: %+v\n" [VStudent v];;
  let ptr1 := original in
  let ptr2 := original in
  do v <- deref ptr1;
  printf "Pointer 1 points to: %+v\n" [VStudent v];;
  do v <- deref ptr2;
  printf "Pointer 2 points to: %+v\n" [VStudent v];;
  assign_Grade ptr1 95;;
  printf "After changing via ptr1:\n" [];;
  do v <- deref original;
  printf "  original: %+v\n" [VStudent v];;
  do v <- deref ptr1;
  printf "  ptr1: %+v\n" [VStudent v];;
  do v <- deref ptr2;
  printf "  ptr2: %+v\n" [VStudent v].

Definition demonstrateWhenToUseEach : M unit :=
  println [VStr "\n=== WHEN TO USE VALUES vs POINTERS ==="];;
  do students <- literal_Students
                   [mkStudent 1 "Alice" 85 20;
                    mkStudent 2 "Bob" 92 21;
                    mkStudent 3 "Charlie" 78 19];
  println [VStr "\n1. For READ-ONLY operations - use VALUES:"];;
  do s0 <- index_Student students 0;
  do s1 <- index_Student students 1;
  do s2 <- index_Student students 2;
  let gpa := calculateGPAValue s0 s1 s2 in
  printf "   GPA (by value): %.2f\n" [VFloat gpa];;
  do s0 <- index_Student students 0;
  printf "   Students unchanged: %v\n" [VBool (PrimFloat.eqb (Grade s0) 85)];;
  println [VStr "\n2. For MODIFICATIONS - use POINTERS:"];;
  do s0 <- index_Student students 0;
  printf "   Before: %s has grade %.1f\n" [VStr (Name s0); VFloat (Grade s0)];;
  do p0 <- addr_Student students 0;
  updateGradeInPlace p0 95;;
  do s0 <- index_Student students 0;
  printf "   After: %s has grade %.1f\n" [VStr (Name s0); VFloat (Grade s0)];;
  println [VStr "\n3. For LARGE structs - use POINTERS (efficiency):"];;
  do p0 <- addr_Student students 0;
  do p1 <- addr_Student students 1;
  do p2 <- addr_Student students 2;
  do gpa2 <- calculateGPAPointer p0 p1 p2;
  printf "   GPA (by pointer): %.2f\n" [VFloat gpa2].

Section RuntimeSlices.

Context (rt : runtime).

(** addStudentToClass - modifying slice structure. *)
Definition addStudentToClass (students : option nat) (newStudent : Student) : M unit :=
  do sl <- deref_slice students;
  do sl' <- append_Student rt sl newStudent;
  assign_slice students sl'.

Definition demonstrateSliceBehavior : M unit :=
  println [VStr "\n=== SLICE BEHAVIOR (REFERENCE TYPE) ==="];;
  do grades <- literal_floats [85; 92; 78; 88]%float;
  do v <- read_floats grades;
  printf "Original grades: %v\n" [VFloats v];;
  modifyGradesSlice grades;;
  do v <- read_floats grades;
  printf "After modifyGradesSlice: %v\n" [VFloats v];;
  do class <- new_slice nil_slice;
  do sl <- deref_slice class;
  do v <- read_Students sl;
  printf "Empty class: %v\n" [VStudents v];;
  addStudentToClass class (mkStudent 1 "Charlie" 82 19);;
  addStudentToClass class (mkStudent 2 "Diana" 91 20);;
  do sl <- deref_slice class;
  printf "Class after adding students: %d students\n" [VInt (Z.of_nat (len sl))];;
  do sl <- deref_slice class;
  range_Students sl
    (fun _ student _ =>
       printf "  %s: %.1f\n" [VStr (Name student); VFloat (Grade student)]) tt.

(** runValueVsPointerDemo demonstrates value vs pointer behavior. *)
Definition runValueVsPointerDemo : M unit :=
  println [VStr "Value vs Pointer Demonstration"];;
  println [VStr "=============================="];;
  demonstrateValueBehavior;;
  demonstratePointerBehavior;;
  demonstrateSliceBehavior;;
  demonstrateWhenToUseEach;;
  println [VStr "\n=== SUMMARY ==="];;
  println [VStr "VALUES (copies):"];;
  println [VStr "  • Safe - can't accidentally modify original"];;
  println [VStr "  • Good for small structs and read-only operations"];;
  println [VStr "  • Each function gets its own copy to work with"];;
  println [VStr "\nPOINTERS (shared access):"];;
  println [VStr "  • Efficient - no copying"];;
  println [VStr "  • Required when you want to modify the original"];;
  println [VStr "  • Multiple pointers can refer to same object"];;
  println [VStr "  • Always check for nil!"];;
  println [VStr "\nSLICES & MAPS:"];;
  println [VStr "  • Reference types - contain pointers internally"];;
  println [VStr "  • Modifications affect the underlying data"];;
  println [VStr "  • Be aware of this behavior!"].

End RuntimeSlices.

(** ** escape-analysis.go *)

(** staysOnStack1 - variable used only locally. *)
Definition staysOnStack1 : M unit :=
  let student := mkStudent 1 "Alice" 85.5 20 in
  printf "Student %s has grade %.1f\n" [VStr (Name student); VFloat (Grade student)].

(** staysOnStack2 - returning value (not pointer). *)
Definition staysOnStack2 : M Student :=
  let student := mkStudent 2 "Bob" 92 19 in
  ret student.

Definition processStudent (s : Student) : M unit :=
  let s := set_Grade (Grade s + 10)%float s in
  printf "Inside function (copy): %+v\n" [VStudent s].

(** staysOnStack3 - passing to function temporarily. *)
Definition staysOnStack3 : M unit :=
  let student := mkStudent 3 "Charlie" 78 21 in
  processStudent student;;
  printf "Original student unchanged: %+v\n" [VStudent student].

(** escapesToHeap1 - returning pointer. *)
Definition escapesToHeap1 : M ptr :=
  let student := mkStudent 4 "Diana" 95 20 in
  new_Student student.

(** escapesToHeap2 - storing in interface{}. *)
Definition escapesToHeap2 : M unit :=
  let student := mkStudent 5 "Eve" 88 22 in
  println [VStr "Student via fmt.Println:"; VStudent student].

(** escapesToHeap3 - large struct (simulated with array). *)
Definition escapesToHeap3 : M unit :=
  let largeData := replicate (Z.to_nat 10000) 0 in
  let largeData := <[0%nat := 42]> largeData in
  do x <- lift (largeData !! 0%nat);
  printf "Large data first element: %d\n" [VInt x].

(** escapesToHeap4 - stored in global or long-lived structure. *)
Definition escapesToHeap4 : M unit :=
  do student <- new_Student (mkStudent 6 "Frank" 82 23);
  do st <- get;
  put (with_globalStudent student st).

(** calculateAverageStack - no heap allocations. *)
Definition calculateAverageStacks (students : slice) : M float :=
  do total <- range_Students students
                (fun _ student total => ret (total + Grade student)%float) 0%float;
  ret (total / float64_of_int (Z.of_nat (len students)))%float.

Section RuntimeEscape.

Context (rt : runtime).

(** calculateAverageHeap - creates intermediate slice. *)
Definition calculateAverageHeaps (students : slice) : M float :=
  let grades := nil_slice in
  do grades <- range_Students students
                 (fun _ student grades => append_float rt grades (Grade student))
                 grades;
  do total <- range_floats grades
                (fun _ grade total => ret (total + grade)%float) 0%float;
  ret (total / float64_of_int (Z.of_nat (len grades)))%float.

Definition main : M unit :=
  println [VStr "Go Escape Analysis Examples"];;
  println [VStr "==========================="];;
  println [VStr "\n--- Variables That STAY ON STACK ---"];;
  staysOnStack1;;
  do stackStudent <- staysOnStack2;
  printf "Returned by value: %s (Grade: %.1f)\n"
    [VStr (Name stackStudent); VFloat (Grade stackStudent)];;
  staysOnStack3;;
  println [VStr "\n--- Variables That ESCAPE TO HEAP ---"];;
  do heapStudent <- escapesToHeap1;
  do v <- deref heapStudent;
  printf "Returned by pointer: %s (Grade: %.1f)\n" [VStr (Name v); VFloat (Grade v)];;
  escapesToHeap2;;
  escapesToHeap3;;
  escapesToHeap4;;
  do st <- get;
  do v <- pointee (globalStudent st);
  printf "Global student: %+v\n" [VStudentPtr v];;
  println [VStr "\n--- Performance Impact ---"];;
  do testStudents <- literal_Students
                       [mkStudent 1 "Test1" 85 20;
                        mkStudent 2 "Test2" 90 21;
                        mkStudent 3 "Test3" 78 19;
                        mkStudent 4 "Test4" 88 22;
                        mkStudent 5 "Test5" 92 20];
  do stackAvg <- calculateAverageStacks testStudents;
  do heapAvg <- calculateAverageHeaps testStudents;
  printf "Stack calculation: %.2f (no extra allocations)\n" [VFloat stackAvg];;
  printf "Heap calculation: %.2f (creates intermediate slice)\n" [VFloat heapAvg];;
  println [VStr "\n=== To See Escape Analysis ==="];;
  println [VStr "Run: go build -gcflags='-m' examples/escape_analysis.go"];;
  println [VStr "\nLook for output like:"];;
  println [VStr "  'moved to heap: student'"];;
  println [VStr "  '&student escapes to heap'"];;
  println [VStr "\nThis tells you which variables Go puts on the heap!"].

End RuntimeEscape.

(** A runtime that grows a full backing array to twice its capacity, with a
    clock that ticks once a reading. *)
Definition sample_runtime : runtime :=
  mkRuntime (fun c n => Nat.max n (2 * c)) (fun a b => Z.of_nat (b - a)) (fun k => Z.of_nat (1024 * k)).

(** ** Vocabulary of the statements *)

(** The sum the loops compute: float64 additions from [0], left to right. *)
Definition sum_floats (l : list float) : float :=
  fold_left (fun total grade => (total + grade)%float) l 0%float.

Definition sum_grades (l : list Student) : float :=
  fold_left (fun total student => (total + Grade student)%float) l 0%float.

(** The mean of the grades in float64 arithmetic: the sum divided by the
    converted count. *)
Definition mean_grade (l : list Student) : float :=
  (sum_grades l / float64_of_int (Z.of_nat (length l)))%float.

(** A pointer a Go program can hold: [nil] or the address of a live cell. *)
Definition valid_ptr (st : state) (p : ptr) : Prop :=
  match p with
  | Some l => (l < length (student_heap st))%nat
  | None => True
  end.

(** [m] returns from [st] (it does not panic) with a result and a final
    state that satisfy [Q]. *)
Definition returns {A} (m : M A) (st : state) (Q : A -> state -> Prop) : Prop :=
  exists a st', m st = Some (a, st') /\ Q a st'.

(** Whenever [m] returns, [globalStudent] is what it was. *)
Definition keeps_global {A} (m : M A) : Prop :=
  forall st a st', m st = Some (a, st') -> globalStudent st' = globalStudent st.

(** Two states that differ at most in what was printed. *)
Definition same_memory (st st' : state) : Prop :=
  student_heap st' = student_heap st /\ float_heap st' = float_heap st /\
  slice_heap st' = slice_heap st /\ globalStudent st' = globalStudent st /\
  reads st' = reads st.

(** Two states with the same Student cells, slice variables, global,
    output and clock: they differ at most in the float64 cells. *)
Definition same_but_floats (st st' : state) : Prop :=
  student_heap st' = student_heap st /\ slice_heap st' = slice_heap st /\
  globalStudent st' = globalStudent st /\ stdout st' = stdout st /\
  reads st' = reads st.

(** The float64 cells of [st] are still there in [st'], except possibly
    those in the spare capacity of the header [g0]. *)
Definition floats_kept_outside (g0 : slice) (st st' : state) : Prop :=
  (length (float_heap st) <= length (float_heap st'))%nat /\
  forall i : nat,
    (i < length (float_heap st))%nat ->
    (i < base g0 + len g0 \/ base g0 + cap g0 <= i)%nat ->
    float_heap st' !! i = float_heap st !! i.

(** The loop [for _, student := range students { grades = append(grades,
    student.Grade) }] after the students [done], started from the header
    [g0] in the state [st]: the header [g] it has reached in [st']. *)
Definition grades_collected (st : state) (g0 : slice) (done : list Student)
  (g : slice) (st' : state) : Prop :=
  elems (float_heap st') g = elems (float_heap st) g0 ++ map Grade done
  /\ len g = (len g0 + length done)%nat
  /\ in_heap (float_heap st') g
  /\ same_but_floats st st'
  /\ floats_kept_outside g0 st st'
  /\ ((base g = base g0 /\ cap g = cap g0) \/ (length (float_heap st) <= base g)%nat).

(** The loop of [modifyGradesSlice] after [k] iterations on the slice [sl],
    started in [st]: the first [k] cells of the slice have 5 more, every
    other float64 cell and the rest of the state are what they were. *)
Definition grades_raised (st : state) (sl : slice) (k : nat) (st' : state) : Prop :=
  length (float_heap st') = length (float_heap st)
  /\ (forall j : nat,
        float_heap st' !! j
        = if decide (base sl <= j < base sl + k)%nat
          then (fun x => (x + 5)%float) <$> float_heap st !! j
          else float_heap st !! j)
  /\ same_but_floats st st'.

(** [p] is the address of a cell that [st] did not have and that holds [s]
    in [st']; every cell of [st] is still there with its record, and the
    float64 cells, the slice variables, the output and the clock are what
    they were. *)
Definition allocated (st : state) (s : Student) (p : ptr) (st' : state) : Prop :=
  ~ valid_ptr st p /\ valid_ptr st' p
  /\ (exists l : nat, p = Some l /\ student_heap st' !! l = Some s)
  /\ (forall (l' : nat) (s' : Student),
        student_heap st !! l' = Some s' -> student_heap st' !! l' = Some s')
  /\ length (student_heap st') = S (length (student_heap st))
  /\ float_heap st' = float_heap st /\ slice_heap st' = slice_heap st
  /\ stdout st' = stdout st /\ reads st' = reads st.








(** The i-th record of the test data of [runPerformanceTest]. *)
Definition test_student (i : nat) : Student :=
  mkStudent (wrap64 (Z.of_nat i))
            ("Student" +:+ pretty i)
            (60 + float64_of_int (Z.rem (Z.of_nat i) 40))%float
            (wrap64 (18 + Z.rem (Z.of_nat i) 10)).

(** What one measurement of [runPerformanceTest] that starts at the reading
    [r] reports: the duration between the readings of [time.Now] and
    [time.Since], and the difference of the two [TotalAlloc] counters. *)
Definition duration (rt : runtime) (r : nat) : Z :=
  wrap64 (elapsed rt (S r) (S (S r))).

Definition bytes_allocated (rt : runtime) (r : nat) : Z :=
  wrapu64 (wrapu64 (total_alloc rt (S (S (S r)))) - wrapu64 (total_alloc rt r)).

(** What [runPerformanceTest] prints, from the three durations and the
    three allocation counts. *)
Definition performance_output
  (stackTime stackAllocs heapTime heapAllocs optimizedTime optimizedAllocs : Z)
  : list event :=
  [Printf "Testing with %d students, %d iterations each\n" [VInt 100; VInt 50000];
   Println [VStr "=================================================="];
   Printf "Stack approach:     %8v  %10d bytes\n" [VInt stackTime; VInt stackAllocs];
   Printf "Heap approach:      %8v  %10d bytes\n" [VInt heapTime; VInt heapAllocs];
   Printf "Optimized approach: %8v  %10d bytes\n"
     [VInt optimizedTime; VInt optimizedAllocs]]
  ++ (if (0 <? stackTime) && (0 <? heapTime) then
        [Printf "\nPerformance improvements:\n" [];
         Printf "• Stack is %.1fx faster than heap\n"
           [VFloat (float64_of_int heapTime / float64_of_int stackTime)%float]]
        ++ (if 0 <? optimizedTime then
              [Printf "• Optimized is %.1fx faster than heap\n"
                 [VFloat (float64_of_int heapTime
                          / float64_of_int optimizedTime)%float]]
            else [])
      else []).


(** * Properties *)

Example main_runs :
  option_map (fun r => (globalStudent r.2, length (stdout r.2))) (main sample_runtime init_state)
  = Some (Some 1%nat, 21%nat).
Proof. vm_compute. reflexivity. Qed.

(** ** Machine arithmetic *)

Lemma wrap64_small (z : Z) : - 2 ^ 63 <= z < 2 ^ 63 -> wrap64 z = z.
Proof.
  intros Hz. unfold wrap64.
  rewrite Z.mod_small by lia. lia.
Qed.

Lemma rem10_bounds (z : Z) : - 9 <= Z.rem z 10 <= 9.
Proof.
  pose proof (Z.rem_bound_abs z 10 ltac:(lia)). lia.
Qed.

Lemma age_of_id (id : Z) : wrap64 (18 + wrap64 (Z.rem id 10)) = 18 + Z.rem id 10.
Proof.
  pose proof (rem10_bounds id) as Hb.
  rewrite (wrap64_small (Z.rem id 10)) by lia.
  apply wrap64_small. lia.
Qed.

(** ** Cells *)

Lemma deref_Some (st : state) (l : nat) (s : Student) :
  student_heap st !! l = Some s -> deref (Some l) st = Some (s, st).
Proof. intros H. unfold deref. now rewrite H. Qed.

Lemma assign_Some (st : state) (l : nat) (s s' : Student) :
  student_heap st !! l = Some s ->
  assign (Some l) s' st = Some (tt, with_student_heap (<[l := s']> (student_heap st)) st).
Proof.
  intros H. unfold assign.
  apply lookup_lt_Some in H.
  destruct (decide (l < length (student_heap st))%nat); [reflexivity | lia].
Qed.

Lemma assign_Grade_Some (st : state) (l : nat) (s : Student) (g : float) :
  student_heap st !! l = Some s ->
  assign_Grade (Some l) g st
  = Some (tt, with_student_heap (<[l := set_Grade g s]> (student_heap st)) st).
Proof.
  intros H. unfold assign_Grade, bind.
  rewrite (deref_Some _ _ _ H). now apply assign_Some with (s := s).
Qed.

Lemma assign_Name_Some (st : state) (l : nat) (s : Student) (n : string) :
  student_heap st !! l = Some s ->
  assign_Name (Some l) n st
  = Some (tt, with_student_heap (<[l := set_Name n s]> (student_heap st)) st).
Proof.
  intros H. unfold assign_Name, bind.
  rewrite (deref_Some _ _ _ H). now apply assign_Some with (s := s).
Qed.

(** ** Values and pointers (values-vs-pointers.go, escape-analysis.go) *)

(** C1. A record handed over by value is copied out of the caller's variable:
    after [modifyStudentValue], [createStudentCopy] and [processStudent] the
    caller's record still holds the same four fields (and no other cell, nor
    the global, has changed). *)
Theorem by_value_calls_keep_the_original
  (st : state) (l : nat) (s : Student) (newName : string) (newID : Z) :
  student_heap st !! l = Some s ->
  (exists st', (do v <- deref (Some l); modifyStudentValue v) st = Some (tt, st')
               /\ same_memory st st' /\ student_heap st' !! l = Some s)
  /\ (do v <- deref (Some l); ret (createStudentCopy v newName newID)) st
     = Some (createStudentCopy s newName newID, st)
  /\ (exists st', (do v <- deref (Some l); processStudent v) st = Some (tt, st')
                  /\ same_memory st st' /\ student_heap st' !! l = Some s).
Proof.
  intros H. unfold bind. rewrite (deref_Some _ _ _ H).
  repeat split.
  - eexists. split; [reflexivity |]. now repeat split.
  - eexists. split; [reflexivity |]. now repeat split.
Qed.

Lemma by_value_calls_keep_the_original_witness :
  let st := with_student_heap [mkStudent 1 "Alice" 85 20] init_state in
  (exists st', (do v <- deref (Some 0%nat); modifyStudentValue v) st = Some (tt, st')
               /\ same_memory st st'
               /\ student_heap st' !! 0%nat = Some (mkStudent 1 "Alice" 85 20))
  /\ (do v <- deref (Some 0%nat); ret (createStudentCopy v "Alice Clone" 2)) st
     = Some (createStudentCopy (mkStudent 1 "Alice" 85 20) "Alice Clone" 2, st)
  /\ (exists st', (do v <- deref (Some 0%nat); processStudent v) st = Some (tt, st')
                  /\ same_memory st st'
                  /\ student_heap st' !! 0%nat = Some (mkStudent 1 "Alice" 85 20)).
Proof.
  exact (by_value_calls_keep_the_original
           (with_student_heap [mkStudent 1 "Alice" 85 20] init_state)
           0 (mkStudent 1 "Alice" 85 20) "Alice Clone" 2 eq_refl).
Defined.

(** C2. Through a non-nil pointer [modifyStudentPointer] writes the record
    itself: afterwards every pointer to that cell reads Grade 100 and the
    name with "Modified " in front, the other two fields as before; no other
    cell changes. *)
Theorem modifyStudentPointer_updates_the_record (st : state) (l : nat) (s : Student) :
  student_heap st !! l = Some s ->
  exists st',
    modifyStudentPointer (Some l) st = Some (tt, st')
    /\ (forall q : ptr, q = Some l ->
          deref q st'
          = Some (mkStudent (ID s) ("Modified " +:+ Name s) 100 (Age s), st'))
    /\ (forall l' : nat, l' <> l -> student_heap st' !! l' = student_heap st !! l').
Proof.
  intros H. pose proof (lookup_lt_Some _ _ _ H) as Hl.
  unfold modifyStudentPointer. cbn [is_nil]. unfold bind.
  rewrite (assign_Grade_Some _ _ _ _ H).
  set (st1 := with_student_heap _ st).
  assert (H1 : student_heap st1 !! l = Some (set_Grade 100 s)).
  { subst st1. cbn. now apply list_lookup_insert_eq. }
  rewrite (deref_Some _ _ _ H1).
  rewrite (assign_Name_Some _ _ _ _ H1).
  set (st2 := with_student_heap _ st1).
  assert (H2 : student_heap st2 !! l
               = Some (mkStudent (ID s) ("Modified " +:+ Name s) 100 (Age s))).
  { subst st2. cbn -[String.append]. apply list_lookup_insert_eq.
    now rewrite length_insert. }
  rewrite (deref_Some _ _ _ H2).
  eexists. split; [reflexivity |]. split.
  - intros q ->. unfold deref. cbn -[String.append].
    change (student_heap st2 !! l) with
      (<[l:=set_Name ("Modified " +:+ Name (set_Grade 100 s)) (set_Grade 100 s)]>
         (student_heap st1) !! l) in H2.
    cbn -[String.append] in H2. now rewrite H2.
  - intros l' Hne. cbn -[String.append].
    rewrite !list_lookup_insert_ne by congruence. reflexivity.
Qed.

Lemma modifyStudentPointer_updates_the_record_witness :
  exists st',
    modifyStudentPointer (Some 0%nat)
      (with_student_heap [mkStudent 3 "Bob" 78 21] init_state) = Some (tt, st')
    /\ (forall q : ptr, q = Some 0%nat ->
          deref q st' = Some (mkStudent 3 ("Modified " +:+ "Bob") 100 21, st'))
    /\ (forall l' : nat, l' <> 0%nat ->
          student_heap st' !! l'
          = student_heap (with_student_heap [mkStudent 3 "Bob" 78 21] init_state) !! l').
Proof.
  exact (modifyStudentPointer_updates_the_record
           (with_student_heap [mkStudent 3 "Bob" 78 21] init_state)
           0 (mkStudent 3 "Bob" 78 21) eq_refl).
Defined.

(** C4. The nil guards: with a nil argument [modifyStudentPointer] and
    [updateGradeInPlace] return at once and the whole state (cells, global,
    output) is what it was; [calculateGPAPointer] returns 0 as soon as one of
    its three arguments is nil, whatever the other two are, without reading
    any of them. None of these calls panics. *)
Theorem nil_guards_return_early (st : state) (g : float) (p q : ptr) :
  modifyStudentPointer None st = Some (tt, st)
  /\ updateGradeInPlace None g st = Some (tt, st)
  /\ calculateGPAPointer None p q st = Some (0%float, st)
  /\ calculateGPAPointer p None q st = Some (0%float, st)
  /\ calculateGPAPointer p q None st = Some (0%float, st).
Proof.
  repeat split; try reflexivity.
  - now destruct p.
  - now destruct p, q.
Qed.

(** C6. Through a non-nil pointer [updateGradeInPlace] sets the Grade of the
    record to the new grade and leaves its ID, Name and Age, and every other
    cell, as they were. *)
Theorem updateGradeInPlace_writes_only_Grade
  (st : state) (l : nat) (s : Student) (newGrade : float) :
  student_heap st !! l = Some s ->
  exists st' s',
    updateGradeInPlace (Some l) newGrade st = Some (tt, st')
    /\ student_heap st' !! l = Some s'
    /\ Grade s' = newGrade /\ ID s' = ID s /\ Name s' = Name s /\ Age s' = Age s
    /\ (forall l' : nat, l' <> l -> student_heap st' !! l' = student_heap st !! l').
Proof.
  intros H. pose proof (lookup_lt_Some _ _ _ H) as Hl.
  unfold updateGradeInPlace. cbn [is_nil].
  rewrite (assign_Grade_Some _ _ _ _ H).
  exists (with_student_heap (<[l := set_Grade newGrade s]> (student_heap st)) st),
         (set_Grade newGrade s).
  split; [reflexivity |]. split.
  - cbn. now apply list_lookup_insert_eq.
  - repeat split. intros l' Hne. cbn.
    now rewrite list_lookup_insert_ne by congruence.
Qed.

Lemma updateGradeInPlace_writes_only_Grade_witness :
  exists st' s',
    updateGradeInPlace (Some 0%nat) 95
      (with_student_heap [mkStudent 1 "Alice" 85 20] init_state) = Some (tt, st')
    /\ student_heap st' !! 0%nat = Some s'
    /\ Grade s' = 95%float /\ ID s' = 1 /\ Name s' = "Alice" /\ Age s' = 20
    /\ (forall l' : nat, l' <> 0%nat ->
          student_heap st' !! l'
          = student_heap (with_student_heap [mkStudent 1 "Alice" 85 20] init_state) !! l').
Proof.
  exact (updateGradeInPlace_writes_only_Grade
           (with_student_heap [mkStudent 1 "Alice" 85 20] init_state)
           0 (mkStudent 1 "Alice" 85 20) 95 eq_refl).
Defined.

(** C7. The record [createStudentByPointer] allocates is the record
    [createStudentByValue] returns, field for field; both set Age to
    [18 + id % 10], where [%] is Go's remainder (the sign of [id] times
    [|id| mod 10]), and no wrap-around occurs. The cells that existed before
    the call are untouched. *)
Theorem constructors_agree (id : Z) (name : string) (grade : float) (st : state) :
  exists (l : nat) (st' : state),
    createStudentByPointer id name grade st = Some (Some l, st')
    /\ deref (Some l) st' = Some (createStudentByValue id name grade, st')
    /\ createStudentByValue id name grade = mkStudent id name grade (18 + Z.rem id 10)
    /\ Z.rem id 10 = Z.sgn id * (Z.abs id mod 10)
    /\ (forall l' : nat, (l' < length (student_heap st))%nat ->
          student_heap st' !! l' = student_heap st !! l').
Proof.
  exists (length (student_heap st)),
         (with_student_heap
            (student_heap st ++ [createStudentByValue id name grade]) st).
  split; [reflexivity |]. split.
  - unfold deref. cbn -[createStudentByValue].
    now rewrite lookup_app_r, Nat.sub_diag by lia.
  - split; [| split].
    + unfold createStudentByValue. now rewrite age_of_id.
    + now rewrite Z.rem_mod by lia.
    + intros l' Hl'. cbn -[createStudentByValue]. now rewrite lookup_app_l.
Qed.

(** C8. With three non-nil pointers [calculateGPAPointer] returns what
    [calculateGPAValue] returns on the three records they point to, the
    float64 sum of the three grades divided by 3, and the state, hence each
    of the three records, is exactly what it was. *)
Theorem calculateGPAPointer_agrees_with_calculateGPAValue
  (st : state) (l1 l2 l3 : nat) (a b c : Student) :
  student_heap st !! l1 = Some a ->
  student_heap st !! l2 = Some b ->
  student_heap st !! l3 = Some c ->
  calculateGPAPointer (Some l1) (Some l2) (Some l3) st
  = Some (calculateGPAValue a b c, st)
  /\ calculateGPAValue a b c = ((Grade a + Grade b + Grade c) / 3)%float.
Proof.
  intros Ha Hb Hc. split; [| reflexivity].
  unfold calculateGPAPointer. cbn [is_nil orb]. unfold bind.
  now rewrite (deref_Some _ _ _ Ha), (deref_Some _ _ _ Hb), (deref_Some _ _ _ Hc).
Qed.

Lemma calculateGPAPointer_agrees_with_calculateGPAValue_witness :
  let st := with_student_heap
              [mkStudent 1 "Alice" 85 20; mkStudent 2 "Bob" 92 21;
               mkStudent 3 "Charlie" 78 19] init_state in
  calculateGPAPointer (Some 0%nat) (Some 1%nat) (Some 2%nat) st
  = Some (calculateGPAValue (mkStudent 1 "Alice" 85 20) (mkStudent 2 "Bob" 92 21)
            (mkStudent 3 "Charlie" 78 19), st)
  /\ calculateGPAValue (mkStudent 1 "Alice" 85 20) (mkStudent 2 "Bob" 92 21)
       (mkStudent 3 "Charlie" 78 19)
     = ((85 + 92 + 78) / 3)%float.
Proof.
  exact (calculateGPAPointer_agrees_with_calculateGPAValue
           (with_student_heap
              [mkStudent 1 "Alice" 85 20; mkStudent 2 "Bob" 92 21;
               mkStudent 3 "Charlie" 78 19] init_state)
           0 1 2 _ _ _ eq_refl eq_refl eq_refl).
Defined.

(** ** Loops over slices *)

Lemma length_elems {A} (heap : list A) (sl : slice) :
  (base sl + len sl <= length heap)%nat -> length (elems heap sl) = len sl.
Proof.
  intros H. unfold elems. rewrite length_take, length_drop. lia.
Qed.

Lemma elems_len_0 {A} (heap : list A) (sl : slice) :
  len sl = 0%nat -> elems heap sl = [].
Proof. intros H. unfold elems. now rewrite H. Qed.

Lemma lookup_elems {A} (heap : list A) (sl : slice) (i : nat) :
  (i < len sl)%nat -> elems heap sl !! i = heap !! (base sl + i)%nat.
Proof.
  intros H. unfold elems. now rewrite lookup_take_lt, lookup_drop.
Qed.

Lemma index_cells_elems {A} (heap : list A) (sl : slice) (i : nat) (x : A) :
  (base sl + len sl <= length heap)%nat ->
  elems heap sl !! i = Some x -> index_cells heap sl i = Some x.
Proof.
  intros Hv Hx. pose proof (lookup_lt_Some _ _ _ Hx) as Hi.
  rewrite length_elems in Hi by assumption.
  unfold index_cells. destruct (decide (i < len sl)%nat); [| lia].
  now rewrite <- lookup_elems.
Qed.

(** A loop whose body leaves the state alone folds a pure step over the
    elements it visits. *)
Lemma loop_fold {A B} (xs : list B) (f : A -> B -> A) (body : nat -> A -> M A)
  (st : state) (i : nat) (a : A) :
  (forall k x a', xs !! k = Some x -> body (i + k)%nat a' st = Some (f a' x, st)) ->
  loop (length xs) i body a st = Some (fold_left f xs a, st).
Proof.
  revert i a. induction xs as [| x xs IH]; intros i a Hbody; [reflexivity |].
  cbn [length loop fold_left]. unfold bind.
  specialize (Hbody 0%nat x a eq_refl) as H0. rewrite Nat.add_0_r in H0.
  rewrite H0. apply IH. intros k y a' Hy.
  replace (S i + k)%nat with (i + S k)%nat by lia. now apply Hbody.
Qed.

Lemma range_Students_fold {A} (sl : slice) (f : A -> Student -> A)
  (body : nat -> Student -> A -> M A) (st : state) (a : A) :
  (base sl + len sl <= length (student_heap st))%nat ->
  (forall i x a', body i x a' st = Some (f a' x, st)) ->
  range_Students sl body a st
  = Some (fold_left f (elems (student_heap st) sl) a, st).
Proof.
  intros Hv Hbody. unfold range_Students.
  rewrite <- (length_elems (student_heap st) sl Hv).
  apply loop_fold. intros k x a' Hx. cbn [Nat.add].
  unfold bind, index_Student, get, lift. cbn.
  now rewrite (index_cells_elems _ _ _ _ Hv Hx).
Qed.

Lemma range_floats_fold {A} (sl : slice) (f : A -> float -> A)
  (body : nat -> float -> A -> M A) (st : state) (a : A) :
  (base sl + len sl <= length (float_heap st))%nat ->
  (forall i x a', body i x a' st = Some (f a' x, st)) ->
  range_floats sl body a st
  = Some (fold_left f (elems (float_heap st) sl) a, st).
Proof.
  intros Hv Hbody. unfold range_floats.
  rewrite <- (length_elems (float_heap st) sl Hv).
  apply loop_fold. intros k x a' Hx. cbn [Nat.add].
  unfold bind, index_float, get, lift. cbn.
  now rewrite (index_cells_elems _ _ _ _ Hv Hx).
Qed.

(** The pair (total, count) the loop of [calculateAverageStack] carries. *)
Lemma total_and_count (xs : list Student) (t : float) (n : nat) :
  Z.of_nat (n + length xs) < 2 ^ 63 ->
  fold_left (fun '(total, count) student =>
               ((total + Grade student)%float, wrap64 (count + 1)))
    xs (t, Z.of_nat n)
  = (fold_left (fun total student => (total + Grade student)%float) xs t,
     Z.of_nat (n + length xs)).
Proof.
  revert t n. induction xs as [| x xs IH]; intros t n Hn.
  - cbn. now rewrite Nat.add_0_r.
  - cbn [fold_left length] in *.
    rewrite wrap64_small by lia.
    replace (Z.of_nat n + 1) with (Z.of_nat (S n)) by lia.
    rewrite IH by lia. f_equal. lia.
Qed.

(** The value of [calculateAverageStack] and the state it returns. *)
Lemma calculateAverageStack_value (st : state) (students : slice) :
  valid_slice (student_heap st) students ->
  Z.of_nat (len students) < 2 ^ 63 ->
  calculateAverageStack students st
  = Some (if decide (len students = 0%nat) then 0%float
          else mean_grade (elems (student_heap st) students), st).
Proof.
  intros [Hlen Hcap] Hint.
  assert (Hv : (base students + len students <= length (student_heap st))%nat) by lia.
  unfold calculateAverageStack, bind.
  rewrite (range_Students_fold students
             (fun '(total, count) student =>
                ((total + Grade student)%float, wrap64 (count + 1))))
    by (assumption || now intros i x [t c]).
  change (0%float, 0) with (0%float, Z.of_nat 0).
  rewrite total_and_count by (rewrite length_elems by assumption; cbn; lia).
  rewrite length_elems by assumption. cbn [Nat.add].
  destruct (decide (len students = 0%nat)) as [H0 | H0].
  - now rewrite H0.
  - destruct (Z.eqb_spec (Z.of_nat (len students)) 0) as [Hz | Hz]; [lia |].
    unfold ret, mean_grade, sum_grades.
    now rewrite length_elems by assumption.
Qed.

(** C5. On a slice that lies in the heap [calculateAverageStack] returns 0
    when the slice is empty and otherwise the mean of the Grade fields in
    float64 arithmetic (the grades added from 0 in slice order, divided by the
    converted count); the state it returns is the state it was given, so
    no element of the slice has changed. *)
Theorem calculateAverageStack_is_the_mean (st : state) (students : slice) :
  valid_slice (student_heap st) students ->
  Z.of_nat (len students) < 2 ^ 63 ->
  calculateAverageStack students st
  = Some (if decide (len students = 0%nat) then 0%float
          else mean_grade (elems (student_heap st) students), st).
Proof. apply calculateAverageStack_value. Qed.

Lemma calculateAverageStack_is_the_mean_witness :
  let st := with_student_heap
              [mkStudent 1 "Test1" 85 20; mkStudent 2 "Test2" 90 21;
               mkStudent 3 "Test3" 78 19] init_state in
  calculateAverageStack (mkSlice 0 3 3) st
  = Some (if decide (len (mkSlice 0 3 3) = 0%nat) then 0%float
          else mean_grade (elems (student_heap st) (mkSlice 0 3 3)), st).
Proof.
  apply calculateAverageStack_is_the_mean.
  - split; cbn; lia.
  - cbn. lia.
Defined.

Example calculateAverageStack_three :
  option_map fst
    (calculateAverageStack (mkSlice 0 3 3)
       (with_student_heap
          [mkStudent 1 "Test1" 85 20; mkStudent 2 "Test2" 90 21;
           mkStudent 3 "Test3" 78 19] init_state))
  = Some (253 / 3)%float.
Proof. vm_compute. reflexivity. Qed.

(** ** The three averages of types.go *)

Lemma nan_is_not_zero : nan <> 0%float.
Proof.
  intros H. assert (E : PrimFloat.is_nan nan = true) by reflexivity.
  rewrite H in E. discriminate E.
Qed.

(** C3, at the empty slice: [calculateAverageStack] takes its guard and
    returns 0, while [calculateAverageHeap] and [calculateAverageOptimized],
    which have no such guard, divide 0 by 0 and return NaN. *)
Theorem averages_disagree_on_the_empty_slice (rt : runtime) (st : state) :
  exists stack heap optimized : float,
    option_map fst (calculateAverageStack nil_slice st) = Some stack
    /\ option_map fst (calculateAverageHeap rt nil_slice st) = Some heap
    /\ option_map fst (calculateAverageOptimized rt nil_slice st) = Some optimized
    /\ stack = 0%float /\ heap = nan /\ optimized = nan
    /\ stack <> heap /\ stack <> optimized.
Proof.
  exists 0%float, nan, nan.
  repeat split; try reflexivity; intros H; now apply nan_is_not_zero.
Qed.

(** ** Reasoning about computations that return *)

Lemma returns_ret {A} (a : A) (st : state) (Q : A -> state -> Prop) :
  Q a st -> returns (ret a) st Q.
Proof. intros H. now exists a, st. Qed.

Lemma returns_bind {A B} (m : M A) (k : A -> M B) (st : state)
  (Q : B -> state -> Prop) :
  returns m st (fun a st' => returns (k a) st' Q) -> returns (bind m k) st Q.
Proof.
  intros (a & st' & Hm & b & st'' & Hk & HQ).
  exists b, st''. unfold bind. now rewrite Hm.
Qed.

Lemma returns_mono {A} (m : M A) (st : state) (Q Q' : A -> state -> Prop) :
  returns m st Q -> (forall a st', Q a st' -> Q' a st') -> returns m st Q'.
Proof. intros (a & st' & Hm & HQ) H. exists a, st'. auto. Qed.

Lemma returns_eq {A} (m : M A) (st : state) (a : A) (st' : state)
  (Q : A -> state -> Prop) :
  m st = Some (a, st') -> Q a st' -> returns m st Q.
Proof. intros Hm HQ. now exists a, st'. Qed.

(** The invariant rule for [loop]. *)
Lemma returns_loop {A} (I : nat -> A -> state -> Prop) (n i : nat)
  (body : nat -> A -> M A) (a : A) (st : state) :
  I i a st ->
  (forall k a' st', (i <= k < i + n)%nat -> I k a' st' ->
                    returns (body k a') st' (I (S k))) ->
  returns (loop n i body a) st (I (i + n)%nat).
Proof.
  revert i a st. induction n as [| n IH]; intros i a st Hi Hbody.
  - rewrite Nat.add_0_r. now apply returns_ret.
  - cbn [loop]. apply returns_bind.
    eapply returns_mono; [apply (Hbody i a st); [lia | assumption] |].
    intros a' st' HI. replace (i + S n)%nat with (S i + n)%nat by lia.
    apply IH; [assumption |]. intros k a'' st'' Hk. apply Hbody. lia.
Qed.

(** ** [append] *)

Lemma valid_slice_in_heap {A} (heap : list A) (sl : slice) :
  valid_slice heap sl -> in_heap heap sl.
Proof. intros [H1 H2]. split; lia. Qed.

Lemma in_heap_nil_slice {A} (heap : list A) : in_heap heap nil_slice.
Proof. split; cbn; lia. Qed.

Lemma elems_insert_in_place {A} (heap : list A) (b n c : nat) (x : A) :
  (b + n < length heap)%nat ->
  elems (<[(b + n)%nat := x]> heap) (mkSlice b (S n) c)
  = elems heap (mkSlice b n c) ++ [x].
Proof.
  intros H. unfold elems. cbn [base len].
  rewrite drop_insert_ge by lia. replace (b + n - b)%nat with n by lia.
  rewrite (take_S_r _ n x).
  - now rewrite take_insert_ge by lia.
  - apply list_lookup_insert_eq. rewrite length_drop. lia.
Qed.

Lemma elems_grow {A} (heap : list A) (sl : slice) (x : A) (c : nat) (pad : list A) :
  (base sl + len sl <= length heap)%nat ->
  elems (heap ++ elems heap sl ++ [x] ++ pad) (mkSlice (length heap) (S (len sl)) c)
  = elems heap sl ++ [x].
Proof.
  intros H. unfold elems at 1. cbn [base len].
  rewrite drop_app_length.
  rewrite (app_assoc (elems heap sl) [x] pad).
  apply take_app_length'. rewrite length_app, length_elems by assumption.
  cbn. lia.
Qed.

(** What [append] does to a heap of cells: the new header has one element
    more, its elements are the old ones followed by the new one, and it lies
    in the new heap; no cell is lost, and the only old cell that can change is
    the one just past the old length, when capacity was left. *)
Lemma append_cells_spec {A} (zero : A) (c : nat) (heap : list A) (sl : slice) (x : A) :
  in_heap heap sl ->
  exists heap' sl',
    append_cells zero c heap sl x = Some (heap', sl')
    /\ len sl' = S (len sl)
    /\ elems heap' sl' = elems heap sl ++ [x]
    /\ in_heap heap' sl'
    /\ (length heap <= length heap')%nat
    /\ (forall i : nat, (i < length heap)%nat ->
          ~ ((len sl < cap sl)%nat /\ i = (base sl + len sl)%nat) ->
          heap' !! i = heap !! i)
    /\ ((len sl < cap sl)%nat -> base sl' = base sl /\ cap sl' = cap sl
                                 /\ length heap' = length heap)
    /\ (~ (len sl < cap sl)%nat -> base sl' = length heap).
Proof.
  intros [Hlen Hcap]. unfold append_cells.
  destruct (decide (len sl < cap sl)%nat) as [Hlt | Hge].
  - destruct (decide (base sl + len sl < length heap)%nat) as [Hin | Hout]; [| lia].
    eexists _, _. split; [reflexivity |]. cbn [len base cap].
    split; [reflexivity |]. split.
    { destruct sl as [b n k]. cbn [base len cap] in *.
      now apply elems_insert_in_place. }
    split. { split; cbn [base len cap]; rewrite length_insert; lia. }
    split. { rewrite length_insert. lia. }
    split.
    { intros i Hi Hne. apply list_lookup_insert_ne. intros E. apply Hne.
      split; [assumption | now symmetry]. }
    split. { intros _. rewrite length_insert. now repeat split. }
    intros Hn. now destruct Hn.
  - unfold grow. eexists _, _. split; [reflexivity |]. cbn [len base cap].
    split; [reflexivity |]. split. { now apply elems_grow. }
    split.
    { split; cbn [base len cap];
        rewrite !length_app, length_elems, length_replicate by assumption;
        cbn [length]; lia. }
    split. { rewrite length_app. lia. }
    split. { intros i Hi _. now apply lookup_app_l. }
    split. { intros Hlt. now destruct Hge. }
    reflexivity.
Qed.

Lemma append_float_spec (rt : runtime) (g : slice) (x : float) (st : state) :
  in_heap (float_heap st) g ->
  exists heap' g',
    append_float rt g x st = Some (g', with_float_heap heap' st)
    /\ len g' = S (len g)
    /\ elems heap' g' = elems (float_heap st) g ++ [x]
    /\ in_heap heap' g'
    /\ (length (float_heap st) <= length heap')%nat
    /\ (forall i : nat, (i < length (float_heap st))%nat ->
          ~ ((len g < cap g)%nat /\ i = (base g + len g)%nat) ->
          heap' !! i = float_heap st !! i)
    /\ ((len g < cap g)%nat -> base g' = base g /\ cap g' = cap g
                               /\ length heap' = length (float_heap st))
    /\ (~ (len g < cap g)%nat -> base g' = length (float_heap st)).
Proof.
  intros Hin.
  destruct (append_cells_spec 0%float (growcap rt (cap g) (S (len g)))
              (float_heap st) g x Hin) as (heap' & g' & Happ & Hrest).
  exists heap', g'. split; [| exact Hrest].
  unfold append_float, bind, get, lift, put, ret. now rewrite Happ.
Qed.

Lemma grades_collected_step (rt : runtime) (st0 : state) (g0 : slice)
  (done : list Student) (x : Student) (g : slice) (st : state) :
  grades_collected st0 g0 done g st ->
  returns (append_float rt g (Grade x)) st
    (grades_collected st0 g0 (done ++ [x])).
Proof.
  intros (Hel & Hlen & Hin & Hsame & [Hgrow Hkept] & Hbase).
  destruct (append_float_spec rt g (Grade x) st Hin)
    as (heap' & g' & Happ & Hlen' & Hel' & Hin' & Hle & Hfr & Hplace & Hfresh).
  eapply returns_eq; [exact Happ |].
  unfold grades_collected, floats_kept_outside, same_but_floats.
  cbn [float_heap student_heap slice_heap globalStudent stdout reads
       with_float_heap].
  split. { rewrite Hel', Hel, map_app, <- app_assoc. reflexivity. }
  split. { rewrite Hlen', Hlen, length_app. cbn. lia. }
  split; [assumption |].
  split. { destruct Hsame as (? & ? & ? & ? & ?). now repeat split. }
  split.
  { split; [lia |]. intros i Hi Hout.
    rewrite Hfr; [now apply Hkept | lia |].
    intros [Hlt ->]. destruct Hbase as [[Hb Hc] | Hb]; lia. }
  destruct (decide (len g < cap g)%nat) as [Hlt | Hge].
  - destruct (Hplace Hlt) as (Hb & Hc & _).
    destruct Hbase as [[Hb0 Hc0] | Hb0]; [left | right]; split || lia; congruence.
  - right. rewrite (Hfresh Hge). lia.
Qed.

(** The collecting loop of [calculateAverageHeap] and
    [calculateAverageOptimized], from any header that lies in the heap. *)
Lemma collect_grades (rt : runtime) (students g0 : slice) (st : state) :
  (base students + len students <= length (student_heap st))%nat ->
  in_heap (float_heap st) g0 ->
  returns
    (range_Students students
       (fun _ student grades => append_float rt grades (Grade student)) g0) st
    (grades_collected st g0 (elems (student_heap st) students)).
Proof.
  intros Hv Hin. unfold range_Students.
  set (xs := elems (student_heap st) students).
  assert (Hxs : length xs = len students) by now apply length_elems.
  eapply returns_mono.
  - apply (returns_loop (fun k g st' => grades_collected st g0 (take k xs) g st')).
    + unfold grades_collected, same_but_floats, floats_kept_outside.
      cbn. rewrite app_nil_r.
      repeat split; auto with lia; apply Hin.
    + intros k g st' Hk HI.
      destruct (lookup_lt_is_Some_2 xs k ltac:(lia)) as [x Hx].
      apply returns_bind.
      assert (Hheap : student_heap st' = student_heap st) by apply HI.
      eapply returns_eq.
      { unfold index_Student, bind, get, lift. rewrite Hheap.
        now rewrite (index_cells_elems _ _ _ _ Hv Hx). }
      rewrite (take_S_r _ _ _ Hx). now apply grades_collected_step.
  - intros g st' HI. cbn [Nat.add] in HI.
    now rewrite take_ge in HI by lia.
Qed.

Lemma sum_floats_map_Grade (xs : list Student) :
  sum_floats (map Grade xs) = sum_grades xs.
Proof.
  unfold sum_floats, sum_grades. generalize 0%float.
  induction xs as [| x xs IH]; intros t; [reflexivity | apply IH].
Qed.

Lemma kept_cells_are_a_prefix {A} (old new : list A) :
  (length old <= length new)%nat ->
  (forall i : nat, (i < length old)%nat -> new !! i = old !! i) ->
  exists fresh : list A, new = old ++ fresh.
Proof.
  intros Hlen Hsame. exists (drop (length old) new).
  rewrite <- (take_drop (length old) new) at 1. f_equal.
  apply list_eq. intros i.
  destruct (decide (i < length old)%nat) as [Hi | Hi].
  - rewrite lookup_take_lt by assumption. now apply Hsame.
  - rewrite lookup_take_ge by lia. symmetry. apply lookup_ge_None. lia.
Qed.

(** The second loop of the two functions and their division. *)
Lemma sum_and_divide (g : slice) (st : state) :
  in_heap (float_heap st) g ->
  (do total <- range_floats g (fun _ grade total => ret (total + grade)%float) 0%float;
   ret (total / float64_of_int (Z.of_nat (len g)))%float) st
  = Some ((sum_floats (elems (float_heap st) g)
           / float64_of_int (Z.of_nat (len g)))%float, st).
Proof.
  intros [Hlen _]. unfold bind.
  now rewrite (range_floats_fold g (fun total grade => (total + grade)%float)).
Qed.

(** [calculateAverageHeap] on a slice that lies in the heap: it returns the
    float64 mean of the grades; the Student cells, the slice variables, the
    global, the output and the clock are what they were, and the float64
    cells that existed are still there, followed by those it allocated. *)
Lemma calculateAverageHeap_spec (rt : runtime) (students : slice) (st : state) :
  valid_slice (student_heap st) students ->
  returns (calculateAverageHeap rt students) st
    (fun avg st' =>
       avg = mean_grade (elems (student_heap st) students)
       /\ same_but_floats st st'
       /\ exists fresh, float_heap st' = float_heap st ++ fresh).
Proof.
  intros Hvalid. destruct (valid_slice_in_heap _ _ Hvalid) as [Hv _].
  unfold calculateAverageHeap. apply returns_bind.
  eapply returns_mono;
    [apply (collect_grades rt students nil_slice st Hv), in_heap_nil_slice |].
  intros g st' (Hel & Hlen & Hin & Hsame & [Hle Hkept] & _).
  eapply returns_eq; [now apply sum_and_divide |].
  split; [| split; [assumption |]].
  - rewrite Hel, elems_len_0 by reflexivity. cbn [app nil_slice len].
    rewrite sum_floats_map_Grade, Hlen, length_elems by assumption.
    unfold mean_grade. now rewrite length_elems by assumption.
  - apply kept_cells_are_a_prefix; [assumption |].
    intros i Hi. apply Hkept; [assumption | cbn; lia].
Qed.

(** [calculateAverageOptimized]: the same result and the same frame. *)
Lemma calculateAverageOptimized_spec (rt : runtime) (students : slice) (st : state) :
  valid_slice (student_heap st) students ->
  returns (calculateAverageOptimized rt students) st
    (fun avg st' =>
       avg = mean_grade (elems (student_heap st) students)
       /\ same_but_floats st st'
       /\ exists fresh, float_heap st' = float_heap st ++ fresh).
Proof.
  intros Hvalid. destruct (valid_slice_in_heap _ _ Hvalid) as [Hv _].
  unfold calculateAverageOptimized. apply returns_bind.
  set (st1 := with_float_heap
                (float_heap st ++ replicate (len students) 0%float) st).
  set (g0 := mkSlice (length (float_heap st)) 0 (len students)).
  apply (returns_eq _ _ g0 st1); [reflexivity |].
  assert (Hin0 : in_heap (float_heap st1) g0).
  { split; cbn; rewrite length_app, length_replicate; lia. }
  apply returns_bind.
  eapply returns_mono; [apply (collect_grades rt students g0 st1 Hv Hin0) |].
  intros g st' (Hel & Hlen & Hin & Hsame & [Hle Hkept] & _).
  eapply returns_eq; [now apply sum_and_divide |].
  split; [| split].
  - rewrite Hel, elems_len_0 by reflexivity.
    cbn [app student_heap st1 with_float_heap].
    rewrite sum_floats_map_Grade, Hlen. cbn [len g0 Nat.add].
    rewrite length_elems by assumption.
    unfold mean_grade. now rewrite length_elems by assumption.
  - destruct Hsame as (? & ? & ? & ? & ?). now repeat split.
  - cbn [float_heap st1 with_float_heap] in Hle, Hkept.
    rewrite length_app in Hle.
    apply kept_cells_are_a_prefix; [lia |].
    intros i Hi. rewrite Hkept.
    + now apply lookup_app_l.
    + rewrite length_app. lia.
    + cbn. lia.
Qed.

(** ** Who writes [globalStudent] *)

Lemma keeps_global_ret {A} (a : A) : keeps_global (ret a).
Proof. intros st a' st' H. now injection H as _ <-. Qed.

Lemma keeps_global_bind {A B} (m : M A) (k : A -> M B) :
  keeps_global m -> (forall a, keeps_global (k a)) -> keeps_global (bind m k).
Proof.
  intros Hm Hk st b st' H. unfold bind in H.
  destruct (m st) as [[a st1] |] eqn:E; [| discriminate].
  rewrite (Hk a st1 b st' H). now apply (Hm st a st1).
Qed.

Lemma keeps_global_loop {A} (n i : nat) (body : nat -> A -> M A) (a : A) :
  (forall k a', keeps_global (body k a')) -> keeps_global (loop n i body a).
Proof.
  intros Hbody. revert i a. induction n as [| n IH]; intros i a.
  - apply keeps_global_ret.
  - cbn [loop]. apply keeps_global_bind; [apply Hbody | intros a'; apply IH].
Qed.

(** The primitives: each is unfolded, and the state it returns has the
    global of the state it was given. *)
Ltac keeps_global_primitive :=
  intros st a st' H;
  repeat (unfold bind, ret, get, put, lift, panic, mbind, option_bind in H;
          cbn in H);
  repeat case_match; simplify_eq; reflexivity.

Lemma keeps_global_get : keeps_global get.
Proof. keeps_global_primitive. Qed.
Lemma keeps_global_lift {A} (o : option A) : keeps_global (lift o).
Proof. keeps_global_primitive. Qed.
Lemma keeps_global_panic {A} : keeps_global (@panic A).
Proof. keeps_global_primitive. Qed.
Lemma keeps_global_printf f args : keeps_global (printf f args).
Proof. unfold printf. keeps_global_primitive. Qed.
Lemma keeps_global_println args : keeps_global (println args).
Proof. unfold println. keeps_global_primitive. Qed.
Lemma keeps_global_new_Student s : keeps_global (new_Student s).
Proof. unfold new_Student. keeps_global_primitive. Qed.
Lemma keeps_global_deref p : keeps_global (deref p).
Proof. unfold deref. keeps_global_primitive. Qed.
Lemma keeps_global_assign p s : keeps_global (assign p s).
Proof. unfold assign. keeps_global_primitive. Qed.
Lemma keeps_global_index_Student sl i : keeps_global (index_Student sl i).
Proof. unfold index_Student. keeps_global_primitive. Qed.
Lemma keeps_global_update_Student sl i s : keeps_global (update_Student sl i s).
Proof. unfold update_Student. keeps_global_primitive. Qed.
Lemma keeps_global_addr_Student sl i : keeps_global (addr_Student sl i).
Proof. unfold addr_Student. keeps_global_primitive. Qed.
Lemma keeps_global_make_Students n : keeps_global (make_Students n).
Proof. unfold make_Students. keeps_global_primitive. Qed.
Lemma keeps_global_literal_Students l : keeps_global (literal_Students l).
Proof. unfold literal_Students. keeps_global_primitive. Qed.
Lemma keeps_global_index_float sl i : keeps_global (index_float sl i).
Proof. unfold index_float. keeps_global_primitive. Qed.
Lemma keeps_global_update_float sl i x : keeps_global (update_float sl i x).
Proof. unfold update_float. keeps_global_primitive. Qed.
Lemma keeps_global_make_floats c : keeps_global (make_floats c).
Proof. unfold make_floats. keeps_global_primitive. Qed.
Lemma keeps_global_literal_floats l : keeps_global (literal_floats l).
Proof. unfold literal_floats. keeps_global_primitive. Qed.
Lemma keeps_global_new_slice sl : keeps_global (new_slice sl).
Proof. unfold new_slice. keeps_global_primitive. Qed.
Lemma keeps_global_deref_slice p : keeps_global (deref_slice p).
Proof. unfold deref_slice. keeps_global_primitive. Qed.
Lemma keeps_global_assign_slice p sl : keeps_global (assign_slice p sl).
Proof. unfold assign_slice. keeps_global_primitive. Qed.
Lemma keeps_global_read_floats sl : keeps_global (read_floats sl).
Proof. unfold read_floats. keeps_global_primitive. Qed.
Lemma keeps_global_read_Students sl : keeps_global (read_Students sl).
Proof. unfold read_Students. keeps_global_primitive. Qed.
Lemma keeps_global_runtime_GC : keeps_global runtime_GC.
Proof. unfold runtime_GC. keeps_global_primitive. Qed.
Lemma keeps_global_time_Now : keeps_global time_Now.
Proof. unfold time_Now. keeps_global_primitive. Qed.
Lemma keeps_global_ReadMemStats rt : keeps_global (ReadMemStats rt).
Proof. unfold ReadMemStats. keeps_global_primitive. Qed.
Lemma keeps_global_time_Since rt start : keeps_global (time_Since rt start).
Proof. unfold time_Since. keeps_global_primitive. Qed.
Lemma keeps_global_append_float rt sl x : keeps_global (append_float rt sl x).
Proof. unfold append_float, append_cells. keeps_global_primitive. Qed.
Lemma keeps_global_append_Student rt sl x : keeps_global (append_Student rt sl x).
Proof. unfold append_Student, append_cells. keeps_global_primitive. Qed.

Create HintDb frame.
#[local] Hint Resolve keeps_global_ret keeps_global_get keeps_global_lift
  keeps_global_panic keeps_global_printf keeps_global_println
  keeps_global_new_Student keeps_global_deref keeps_global_assign
  keeps_global_index_Student keeps_global_update_Student
  keeps_global_addr_Student keeps_global_make_Students
  keeps_global_literal_Students keeps_global_index_float
  keeps_global_update_float keeps_global_make_floats
  keeps_global_literal_floats keeps_global_new_slice keeps_global_deref_slice
  keeps_global_assign_slice keeps_global_read_floats
  keeps_global_read_Students keeps_global_runtime_GC keeps_global_time_Now
  keeps_global_ReadMemStats keeps_global_time_Since keeps_global_append_float
  keeps_global_append_Student : frame.

(** A function put together from such parts by sequencing, branching and
    looping. *)
Ltac keeps_global_step :=
  match goal with
  | |- keeps_global (bind _ _) => apply keeps_global_bind; [| intros ?]
  | |- keeps_global (loop _ _ _ _) => apply keeps_global_loop; intros ? ?
  | |- keeps_global (if ?b then _ else _) => destruct b
  | |- keeps_global (match ?x with _ => _ end) => destruct x
  | |- keeps_global _ => solve [auto with frame]
  end.

Ltac keeps_global_auto := repeat keeps_global_step.

Lemma keeps_global_assign_Grade p g : keeps_global (assign_Grade p g).
Proof. unfold assign_Grade. keeps_global_auto. Qed.
Lemma keeps_global_assign_Name p n : keeps_global (assign_Name p n).
Proof. unfold assign_Name. keeps_global_auto. Qed.
Lemma keeps_global_pointee p : keeps_global (pointee p).
Proof. unfold pointee. keeps_global_auto. Qed.

Lemma keeps_global_range_Students {A} sl (body : nat -> Student -> A -> M A) a :
  (forall i x a', keeps_global (body i x a')) -> keeps_global (range_Students sl body a).
Proof. intros H. unfold range_Students. keeps_global_auto. Qed.

Lemma keeps_global_range_floats {A} sl (body : nat -> float -> A -> M A) a :
  (forall i x a', keeps_global (body i x a')) -> keeps_global (range_floats sl body a).
Proof. intros H. unfold range_floats. keeps_global_auto. Qed.

Lemma keeps_global_for_lt n body :
  (forall i, keeps_global (body i)) -> keeps_global (for_lt n body).
Proof. intros H. unfold for_lt. keeps_global_auto. Qed.

#[local] Hint Resolve keeps_global_assign_Grade keeps_global_assign_Name
  keeps_global_pointee : frame.

Ltac keeps_global_function :=
  cbv zeta;
  repeat first
    [ keeps_global_step
    | apply keeps_global_range_Students; intros ? ? ?
    | apply keeps_global_range_floats; intros ? ? ?
    | apply keeps_global_for_lt; intros ? ].

(** types.go *)
Lemma keeps_global_calculateAverageStack sl : keeps_global (calculateAverageStack sl).
Proof. unfold calculateAverageStack. keeps_global_function. Qed.
Lemma keeps_global_createStudentByPointer id name grade :
  keeps_global (createStudentByPointer id name grade).
Proof. unfold createStudentByPointer. keeps_global_function. Qed.
Lemma keeps_global_calculateAverageHeap rt sl :
  keeps_global (calculateAverageHeap rt sl).
Proof. unfold calculateAverageHeap. keeps_global_function. Qed.
Lemma keeps_global_calculateAverageOptimized rt sl :
  keeps_global (calculateAverageOptimized rt sl).
Proof. unfold calculateAverageOptimized. keeps_global_function. Qed.

#[local] Hint Resolve keeps_global_calculateAverageStack
  keeps_global_createStudentByPointer keeps_global_calculateAverageHeap
  keeps_global_calculateAverageOptimized : frame.

Lemma keeps_global_runPerformanceTest rt : keeps_global (runPerformanceTest rt).
Proof. unfold runPerformanceTest. keeps_global_function. Qed.

#[local] Hint Resolve keeps_global_runPerformanceTest : frame.

Lemma keeps_global_runStackVsHeapDemo rt : keeps_global (runStackVsHeapDemo rt).
Proof. unfold runStackVsHeapDemo. keeps_global_function. Qed.

(** values-vs-pointers.go *)
Lemma keeps_global_modifyStudentValue s : keeps_global (modifyStudentValue s).
Proof. unfold modifyStudentValue. keeps_global_function. Qed.
Lemma keeps_global_modifyStudentPointer p : keeps_global (modifyStudentPointer p).
Proof. unfold modifyStudentPointer. keeps_global_function. Qed.
Lemma keeps_global_calculateGPAPointer p1 p2 p3 :
  keeps_global (calculateGPAPointer p1 p2 p3).
Proof. unfold calculateGPAPointer. keeps_global_function. Qed.
Lemma keeps_global_updateGradeInPlace p g : keeps_global (updateGradeInPlace p g).
Proof. unfold updateGradeInPlace. keeps_global_function. Qed.
Lemma keeps_global_modifyGradesSlice sl : keeps_global (modifyGradesSlice sl).
Proof. unfold modifyGradesSlice. keeps_global_function. Qed.
Lemma keeps_global_addStudentToClass rt c s : keeps_global (addStudentToClass rt c s).
Proof. unfold addStudentToClass. keeps_global_function. Qed.

#[local] Hint Resolve keeps_global_modifyStudentValue
  keeps_global_modifyStudentPointer keeps_global_calculateGPAPointer
  keeps_global_updateGradeInPlace keeps_global_modifyGradesSlice
  keeps_global_addStudentToClass : frame.

Lemma keeps_global_demonstrateValueBehavior : keeps_global demonstrateValueBehavior.
Proof. unfold demonstrateValueBehavior. keeps_global_function. Qed.
Lemma keeps_global_demonstratePointerBehavior : keeps_global demonstratePointerBehavior.
Proof. unfold demonstratePointerBehavior. keeps_global_function. Qed.
Lemma keeps_global_demonstrateSliceBehavior rt :
  keeps_global (demonstrateSliceBehavior rt).
Proof. unfold demonstrateSliceBehavior. keeps_global_function. Qed.
Lemma keeps_global_demonstrateWhenToUseEach : keeps_global demonstrateWhenToUseEach.
Proof. unfold demonstrateWhenToUseEach. keeps_global_function. Qed.

#[local] Hint Resolve keeps_global_demonstrateValueBehavior
  keeps_global_demonstratePointerBehavior keeps_global_demonstrateSliceBehavior
  keeps_global_demonstrateWhenToUseEach : frame.

Lemma keeps_global_runValueVsPointerDemo rt : keeps_global (runValueVsPointerDemo rt).
Proof. unfold runValueVsPointerDemo. keeps_global_function. Qed.

(** escape-analysis.go *)
Lemma keeps_global_staysOnStack1 : keeps_global staysOnStack1.
Proof. unfold staysOnStack1. keeps_global_function. Qed.
Lemma keeps_global_staysOnStack2 : keeps_global staysOnStack2.
Proof. unfold staysOnStack2. keeps_global_function. Qed.
Lemma keeps_global_processStudent s : keeps_global (processStudent s).
Proof. unfold processStudent. keeps_global_function. Qed.
#[local] Hint Resolve keeps_global_processStudent : frame.
Lemma keeps_global_staysOnStack3 : keeps_global staysOnStack3.
Proof. unfold staysOnStack3. keeps_global_function. Qed.
Lemma keeps_global_escapesToHeap1 : keeps_global escapesToHeap1.
Proof. unfold escapesToHeap1. keeps_global_function. Qed.
Lemma keeps_global_escapesToHeap2 : keeps_global escapesToHeap2.
Proof. unfold escapesToHeap2. keeps_global_function. Qed.
Lemma keeps_global_escapesToHeap3 : keeps_global escapesToHeap3.
Proof. unfold escapesToHeap3. keeps_global_function. Qed.
Lemma keeps_global_calculateAverageStacks sl : keeps_global (calculateAverageStacks sl).
Proof. unfold calculateAverageStacks. keeps_global_function. Qed.
Lemma keeps_global_calculateAverageHeaps rt sl :
  keeps_global (calculateAverageHeaps rt sl).
Proof. unfold calculateAverageHeaps. keeps_global_function. Qed.

(** ** Running the functions *)



(** One step of a straight-line function: sequencing, returning, and what
    computes outright on any state. *)
Ltac run_step :=
  lazymatch goal with
  | |- returns (bind _ _) _ _ => apply returns_bind
  | |- returns (ret _) _ _ => apply returns_ret
  | |- returns (printf _ _) _ _ => eapply returns_eq; [reflexivity |]
  | |- returns (println _) _ _ => eapply returns_eq; [reflexivity |]
  | |- returns (new_Student _) _ _ => eapply returns_eq; [reflexivity |]
  | |- returns (literal_Students _) _ _ => eapply returns_eq; [reflexivity |]
  | |- returns (literal_floats _) _ _ => eapply returns_eq; [reflexivity |]
  | |- returns (make_Students _) _ _ => eapply returns_eq; [reflexivity |]
  | |- returns (make_floats _) _ _ => eapply returns_eq; [reflexivity |]
  | |- returns (new_slice _) _ _ => eapply returns_eq; [reflexivity |]
  | |- returns (read_floats _) _ _ => eapply returns_eq; [reflexivity |]
  | |- returns (read_Students _) _ _ => eapply returns_eq; [reflexivity |]
  | |- returns get _ _ => eapply returns_eq; [reflexivity |]
  | |- returns (put _) _ _ => eapply returns_eq; [reflexivity |]
  | |- returns runtime_GC _ _ => eapply returns_eq; [reflexivity |]
  | |- returns time_Now _ _ => eapply returns_eq; [reflexivity |]
  | |- returns (ReadMemStats _) _ _ => eapply returns_eq; [reflexivity |]
  | |- returns (time_Since _ _) _ _ => eapply returns_eq; [reflexivity |]
  end.

(** The projections of an updated state are reduced after each step, so
    that the state does not grow. *)
Ltac reduce_state :=
  cbn [student_heap float_heap slice_heap globalStudent stdout reads
       with_student_heap with_float_heap with_slice_heap with_globalStudent
       with_stdout with_reads].

Ltac run := repeat (run_step; reduce_state).









Lemma escapesToHeap3_eq (st : state) :
  escapesToHeap3 st
  = Some (tt, with_stdout
                (stdout st ++ [Printf "Large data first element: %d\n" [VInt 42]]) st).
Proof.
  unfold escapesToHeap3. cbv zeta. unfold bind, lift.
  rewrite list_lookup_insert_eq; [reflexivity |].
  rewrite length_replicate. lia.
Qed.


Lemma escapesToHeap4_returns (st : state) :
  returns escapesToHeap4 st
    (fun _ st' =>
       st' = with_globalStudent (Some (length (student_heap st)))
               (with_student_heap
                  (student_heap st ++ [mkStudent 6 "Frank" 82 23]) st)).
Proof. unfold escapesToHeap4. run. reflexivity. Qed.

(** [calculateAverageStacks] of escape-analysis.go has no guard: it is the
    mean also on the empty slice, where the mean is 0/0. *)
Lemma calculateAverageStacks_value (st : state) (students : slice) :
  (base students + len students <= length (student_heap st))%nat ->
  calculateAverageStacks students st
  = Some (mean_grade (elems (student_heap st) students), st).
Proof.
  intros Hv. unfold calculateAverageStacks, bind.
  rewrite (range_Students_fold students
             (fun total student => (total + Grade student)%float))
    by (assumption || reflexivity).
  unfold ret, mean_grade, sum_grades. now rewrite length_elems by assumption.
Qed.

Ltac simpl_state :=
  cbn [student_heap float_heap slice_heap globalStudent stdout reads
       with_student_heap with_float_heap with_slice_heap with_globalStudent
       with_stdout with_reads base len cap] in *.

Lemma lookup_app_plus {A} (l1 l2 : list A) (k : nat) :
  (l1 ++ l2) !! (length l1 + k)%nat = l2 !! k.
Proof. rewrite lookup_app_r by lia. f_equal. lia. Qed.

Ltac lookup_fresh :=
  simpl_state;
  repeat rewrite lookup_app_l by (rewrite ?length_app; cbn [length]; lia);
  first
    [ apply list_lookup_middle; rewrite ?length_app; cbn [length]; lia
    | rewrite lookup_app_plus; reflexivity ].

Lemma index_Student_eq (st : state) (sl : slice) (i : nat) (x : Student) :
  (i < len sl)%nat -> student_heap st !! (base sl + i)%nat = Some x ->
  index_Student sl i st = Some (x, st).
Proof.
  intros Hi Hx. unfold index_Student, bind, get, lift, index_cells.
  destruct (decide (i < len sl)%nat); [| lia]. now rewrite Hx.
Qed.

Lemma addr_Student_eq (st : state) (sl : slice) (i : nat) :
  (i < len sl)%nat -> addr_Student sl i st = Some (Some (base sl + i)%nat, st).
Proof.
  intros Hi. unfold addr_Student. now destruct (decide (i < len sl)%nat); [| lia].
Qed.

Ltac run_heap_step :=
  lazymatch goal with
  | |- returns (deref _) _ _ =>
      eapply returns_eq; [apply deref_Some; lookup_fresh |]
  | |- returns (index_Student _ _) _ _ =>
      eapply returns_eq; [apply index_Student_eq; [cbn; lia | lookup_fresh] |]
  | |- returns (addr_Student _ _) _ _ =>
      eapply returns_eq; [apply addr_Student_eq; cbn; lia |]
  | |- _ => run_step
  end.

Ltac run_heap := repeat (run_heap_step; reduce_state); simpl_state.

(** [main] returns from every state, and when it has returned
    [globalStudent] points to the record that [escapesToHeap4] made. *)
Lemma main_returns (rt : runtime) (st : state) :
  returns (main rt) st
    (fun _ st' =>
       exists l : nat,
         globalStudent st' = Some l
         /\ student_heap st' !! l = Some (mkStudent 6 "Frank" 82 23)).
Proof.
  unfold main, staysOnStack1, staysOnStack2, staysOnStack3, processStudent,
    escapesToHeap1, escapesToHeap2, escapesToHeap4.
  cbv zeta. run. simpl_state.
  eapply returns_eq; [apply deref_Some; lookup_fresh |].
  run.
  eapply returns_eq; [apply escapesToHeap3_eq |].
  run. simpl_state. unfold pointee. run.
  eapply returns_eq; [apply deref_Some; lookup_fresh |].
  run. simpl_state.
  eapply returns_eq.
  { apply calculateAverageStacks_value. simpl_state.
    rewrite !length_app. cbn [length]. lia. }
  run.
  eapply returns_mono.
  { apply (calculateAverageHeap_spec rt). split; simpl_state;
      rewrite ?length_app; cbn [length]; lia. }
  intros avg st' (_ & (Hheap & _ & Hglobal & _) & _).
  run. simpl_state.
  exists (length (student_heap st ++ [mkStudent 4 "Diana" 95 20])).
  split; [assumption |]. rewrite Hheap. lookup_fresh.
Qed.

(** C9, as the claim states it, fails at [main]: run from the initial state,
    where [globalStudent] is nil, [main] returns with [globalStudent] set,
    because it calls [escapesToHeap4]. *)
Lemma main_changes_globalStudent :
  exists st' : state,
    main sample_runtime init_state = Some (tt, st')
    /\ globalStudent init_state = None
    /\ globalStudent st' = Some 1%nat
    /\ globalStudent st' <> globalStudent init_state.
Proof.
  eexists. split; [vm_compute; reflexivity |].
  cbn. repeat split. discriminate.
Qed.

(** C9, amended. [escapesToHeap4] leaves [globalStudent] non-nil, pointing to
    a record with ID 6, Name "Frank", Grade 82.0 and Age 23, and so does
    [main], which calls it. Whenever any other function of the three files
    returns, [globalStudent] is what it was before the call; the three pure
    functions cannot reach it at all. *)
Theorem globalStudent_is_written_through_escapesToHeap4_only (rt : runtime) :
  (forall st, exists l st',
      escapesToHeap4 st = Some (tt, st')
      /\ globalStudent st' = Some l
      /\ student_heap st' !! l = Some (mkStudent 6 "Frank" 82 23))
  /\ (forall st, exists l st',
        main rt st = Some (tt, st')
        /\ globalStudent st' = Some l
        /\ student_heap st' !! l = Some (mkStudent 6 "Frank" 82 23))
  /\ (forall sl, keeps_global (calculateAverageStack sl))
  /\ (forall id name grade, keeps_global (ret (createStudentByValue id name grade)))
  /\ (forall sl, keeps_global (calculateAverageHeap rt sl))
  /\ (forall id name grade, keeps_global (createStudentByPointer id name grade))
  /\ (forall sl, keeps_global (calculateAverageOptimized rt sl))
  /\ keeps_global (runPerformanceTest rt)
  /\ keeps_global (runStackVsHeapDemo rt)
  /\ (forall s, keeps_global (modifyStudentValue s))
  /\ (forall s1 s2 s3, keeps_global (ret (calculateGPAValue s1 s2 s3)))
  /\ (forall s n i, keeps_global (ret (createStudentCopy s n i)))
  /\ (forall p, keeps_global (modifyStudentPointer p))
  /\ (forall p1 p2 p3, keeps_global (calculateGPAPointer p1 p2 p3))
  /\ (forall p g, keeps_global (updateGradeInPlace p g))
  /\ (forall sl, keeps_global (modifyGradesSlice sl))
  /\ (forall c s, keeps_global (addStudentToClass rt c s))
  /\ keeps_global demonstrateValueBehavior
  /\ keeps_global demonstratePointerBehavior
  /\ keeps_global (demonstrateSliceBehavior rt)
  /\ keeps_global demonstrateWhenToUseEach
  /\ keeps_global (runValueVsPointerDemo rt)
  /\ keeps_global staysOnStack1
  /\ keeps_global staysOnStack2
  /\ keeps_global staysOnStack3
  /\ (forall s, keeps_global (processStudent s))
  /\ keeps_global escapesToHeap1
  /\ keeps_global escapesToHeap2
  /\ keeps_global escapesToHeap3
  /\ (forall sl, keeps_global (calculateAverageStacks sl))
  /\ (forall sl, keeps_global (calculateAverageHeaps rt sl)).
Proof.
  split.
  { intros st. destruct (escapesToHeap4_returns st) as ([] & st' & Hrun & ->).
    exists (length (student_heap st)). eexists. split; [exact Hrun |].
    split; [reflexivity |]. cbn. now apply list_lookup_middle. }
  split.
  { intros st. destruct (main_returns rt st) as ([] & st' & Hrun & l & Hg & Hl).
    now exists l, st'. }
  repeat split; intros;
    first
      [ apply keeps_global_ret
      | apply keeps_global_calculateAverageStack
      | apply keeps_global_calculateAverageHeap
      | apply keeps_global_createStudentByPointer
      | apply keeps_global_calculateAverageOptimized
      | apply keeps_global_runPerformanceTest
      | apply keeps_global_runStackVsHeapDemo
      | apply keeps_global_modifyStudentValue
      | apply keeps_global_modifyStudentPointer
      | apply keeps_global_calculateGPAPointer
      | apply keeps_global_updateGradeInPlace
      | apply keeps_global_modifyGradesSlice
      | apply keeps_global_addStudentToClass
      | apply keeps_global_demonstrateValueBehavior
      | apply keeps_global_demonstratePointerBehavior
      | apply keeps_global_demonstrateSliceBehavior
      | apply keeps_global_demonstrateWhenToUseEach
      | apply keeps_global_runValueVsPointerDemo
      | apply keeps_global_staysOnStack1
      | apply keeps_global_staysOnStack2
      | apply keeps_global_staysOnStack3
      | apply keeps_global_processStudent
      | apply keeps_global_escapesToHeap1
      | apply keeps_global_escapesToHeap2
      | apply keeps_global_escapesToHeap3
      | apply keeps_global_calculateAverageStacks
      | apply keeps_global_calculateAverageHeaps ].
Qed.

(** ** The pointer functions as state transformers *)

(** [modifyStudentPointer] through a non-nil pointer, in one equation. *)
Lemma modifyStudentPointer_eq (st : state) (l : nat) (s : Student) :
  student_heap st !! l = Some s ->
  modifyStudentPointer (Some l) st
  = Some (tt, with_stdout
                (stdout st
                 ++ [Printf "Inside modifyStudentPointer: %+v\n"
                       [VStudent (mkStudent (ID s) ("Modified " +:+ Name s) 100 (Age s))]])
                (with_student_heap
                   (<[l := mkStudent (ID s) ("Modified " +:+ Name s) 100 (Age s)]>
                      (student_heap st)) st)).
Proof.
  intros H. set (s' := mkStudent (ID s) ("Modified " +:+ Name s) 100 (Age s)).
  pose proof (lookup_lt_Some _ _ _ H) as Hl.
  unfold modifyStudentPointer. cbn [is_nil]. unfold bind.
  rewrite (assign_Grade_Some _ _ _ _ H).
  set (st1 := with_student_heap _ st).
  assert (H1 : student_heap st1 !! l = Some (set_Grade 100 s)).
  { subst st1. cbn. now apply list_lookup_insert_eq. }
  rewrite (deref_Some _ _ _ H1), (assign_Name_Some _ _ _ _ H1).
  set (st2 := with_student_heap _ st1).
  assert (H2 : student_heap st2 !! l = Some s').
  { subst st2. cbn -[String.append]. apply list_lookup_insert_eq.
    now rewrite length_insert. }
  rewrite (deref_Some _ _ _ H2).
  unfold printf. subst st2 st1. unfold with_stdout, with_student_heap.
  cbn -[String.append]. now rewrite list_insert_insert_eq.
Qed.

Lemma updateGradeInPlace_eq (st : state) (l : nat) (s : Student) (g : float) :
  student_heap st !! l = Some s ->
  updateGradeInPlace (Some l) g st
  = Some (tt, with_student_heap (<[l := set_Grade g s]> (student_heap st)) st).
Proof. intros H. unfold updateGradeInPlace. cbn [is_nil]. now apply assign_Grade_Some. Qed.


(** A pointer a program can hold is nil or points to a record. *)
Lemma valid_ptr_cases (st : state) (p : ptr) :
  valid_ptr st p ->
  p = None \/ exists l s, p = Some l /\ student_heap st !! l = Some s.
Proof.
  destruct p as [l |]; [| now left]. cbn. intros Hl. right.
  destruct (lookup_lt_is_Some_2 _ _ Hl) as [s Hs]. now exists l, s.
Qed.






(** ** Slices shared with the caller *)

Lemma modifyGradesSlice_loop (sl : slice) (st : state) :
  (base sl + len sl <= length (float_heap st))%nat ->
  returns
    (loop (len sl) 0
       (fun i _ => do x <- index_float sl i; update_float sl i (x + 5)%float) tt)
    st (fun _ st' => grades_raised st sl (len sl) st').
Proof.
  intros Hv.
  apply (returns_loop (fun k _ st' => grades_raised st sl k st')).
  - split; [reflexivity |]. split; [| now repeat split].
    intros j. destruct (decide (base sl <= j < base sl + 0)%nat); [lia | reflexivity].
  - intros k [] st' Hk (Hlen & Hcells & Hsame).
    destruct (lookup_lt_is_Some_2 (float_heap st) (base sl + k)%nat ltac:(lia))
      as [x Hx].
    assert (Hx' : float_heap st' !! (base sl + k)%nat = Some x).
    { rewrite Hcells. now destruct (decide (base sl <= base sl + k < base sl + k)%nat);
        [lia |]. }
    apply returns_bind.
    eapply returns_eq.
    { unfold index_float, bind, get, lift, index_cells.
      destruct (decide (k < len sl)%nat); [| lia]. now rewrite Hx'. }
    eapply returns_eq.
    { unfold update_float, bind, get, lift, put, update_cells.
      destruct (decide (k < len sl)%nat); [| lia].
      destruct (decide (base sl + k < length (float_heap st'))%nat); [| lia].
      reflexivity. }
    split; [cbn; now rewrite length_insert |]. split.
    + intros j. cbn [float_heap with_float_heap].
      destruct (decide (j = base sl + k)%nat) as [-> | Hne].
      * rewrite list_lookup_insert_eq by lia. rewrite Hx.
        now destruct (decide (base sl <= base sl + k < base sl + S k)%nat); [| lia].
      * rewrite list_lookup_insert_ne by congruence. rewrite Hcells.
        destruct (decide (base sl <= j < base sl + k)%nat),
                 (decide (base sl <= j < base sl + S k)%nat); try reflexivity; lia.
    + destruct Hsame as (? & ? & ? & ? & ?). now repeat split.
Qed.

Lemma grades_raised_elems (st : state) (sl : slice) (st' : state) :
  (base sl + len sl <= length (float_heap st))%nat ->
  grades_raised st sl (len sl) st' ->
  elems (float_heap st') sl
  = map (fun x => (x + 5)%float) (elems (float_heap st) sl).
Proof.
  intros Hv (Hlen & Hcells & _). apply list_eq. intros i.
  rewrite list_lookup_fmap.
  destruct (decide (i < len sl)%nat) as [Hi | Hi].
  - rewrite !lookup_elems by assumption. rewrite Hcells.
    now destruct (decide (base sl <= base sl + i < base sl + len sl)%nat); [| lia].
  - rewrite !(proj2 (lookup_ge_None _ _)); [reflexivity | |];
      rewrite length_elems; lia.
Qed.

(** [modifyGradesSlice] writes through the slice it is given: afterwards
    each element of the caller's slice is 5 more than it was, every float64
    cell outside the slice and the rest of the memory are unchanged, and the
    raised grades have been printed. *)
Lemma modifyGradesSlice_spec (grades : slice) (st : state) :
  (base grades + len grades <= length (float_heap st))%nat ->
  returns (modifyGradesSlice grades) st
    (fun _ st' =>
       elems (float_heap st') grades
       = map (fun x => (x + 5)%float) (elems (float_heap st) grades)
       /\ length (float_heap st') = length (float_heap st)
       /\ (forall j : nat, ~ (base grades <= j < base grades + len grades)%nat ->
             float_heap st' !! j = float_heap st !! j)
       /\ student_heap st' = student_heap st /\ slice_heap st' = slice_heap st
       /\ globalStudent st' = globalStudent st /\ reads st' = reads st
       /\ stdout st'
          = stdout st
            ++ [Printf "Inside modifyGradesSlice: %v\n"
                  [VFloats (map (fun x => (x + 5)%float)
                              (elems (float_heap st) grades))]]).
Proof.
  intros Hv. unfold modifyGradesSlice. apply returns_bind.
  eapply returns_mono; [now apply modifyGradesSlice_loop |].
  intros [] st' Hraised.
  pose proof (grades_raised_elems _ _ _ Hv Hraised) as Hel.
  destruct Hraised as (Hlen & Hcells & Hs & Hsl & Hg & Hout & Hr).
  run. simpl_state. rewrite Hel, Hout.
  repeat split; try assumption.
  intros j Hj. rewrite Hcells.
  now destruct (decide (base grades <= j < base grades + len grades)%nat).
Qed.

Lemma append_Student_spec (rt : runtime) (sl : slice) (x : Student) (st : state) :
  in_heap (student_heap st) sl ->
  exists heap' sl',
    append_Student rt sl x st = Some (sl', with_student_heap heap' st)
    /\ len sl' = S (len sl)
    /\ elems heap' sl' = elems (student_heap st) sl ++ [x]
    /\ in_heap heap' sl'
    /\ (length (student_heap st) <= length heap')%nat
    /\ (forall i : nat, (i < length (student_heap st))%nat ->
          ~ ((len sl < cap sl)%nat /\ i = (base sl + len sl)%nat) ->
          heap' !! i = student_heap st !! i)
    /\ ((len sl < cap sl)%nat -> base sl' = base sl /\ cap sl' = cap sl
                                 /\ length heap' = length (student_heap st))
    /\ (~ (len sl < cap sl)%nat -> base sl' = length (student_heap st)).
Proof.
  intros Hin.
  destruct (append_cells_spec zero_Student (growcap rt (cap sl) (S (len sl)))
              (student_heap st) sl x Hin) as (heap' & sl' & Happ & Hrest).
  exists heap', sl'. split; [| exact Hrest].
  unfold append_Student, bind, get, lift, put, ret. now rewrite Happ.
Qed.

(** [addStudentToClass] through a pointer to a slice variable: the variable
    receives a header with one element more, whose elements are the old
    ones followed by the new student; no Student cell is lost, and the only
    old cell that can change is the one just past the old length, when the
    old header had capacity left. *)
Lemma addStudentToClass_spec (rt : runtime) (c : nat) (sl : slice)
  (newStudent : Student) (st : state) :
  slice_heap st !! c = Some sl ->
  in_heap (student_heap st) sl ->
  returns (addStudentToClass rt (Some c) newStudent) st
    (fun _ st' =>
       exists sl',
         slice_heap st' = <[c := sl']> (slice_heap st)
         /\ slice_heap st' !! c = Some sl'
         /\ len sl' = S (len sl)
         /\ elems (student_heap st') sl'
            = elems (student_heap st) sl ++ [newStudent]
         /\ in_heap (student_heap st') sl'
         /\ (length (student_heap st) <= length (student_heap st'))%nat
         /\ (forall i : nat, (i < length (student_heap st))%nat ->
               ~ ((len sl < cap sl)%nat /\ i = (base sl + len sl)%nat) ->
               student_heap st' !! i = student_heap st !! i)
         /\ float_heap st' = float_heap st /\ globalStudent st' = globalStudent st
         /\ stdout st' = stdout st /\ reads st' = reads st).
Proof.
  intros Hc Hin. pose proof (lookup_lt_Some _ _ _ Hc) as Hlt.
  destruct (append_Student_spec rt sl newStudent st Hin)
    as (heap' & sl' & Happ & Hlen & Hel & Hin' & Hle & Hfr & _).
  unfold addStudentToClass. apply returns_bind.
  eapply returns_eq.
  { unfold deref_slice, bind, get, lift. cbn. now rewrite Hc. }
  apply returns_bind. eapply returns_eq; [exact Happ |].
  eapply returns_eq.
  { unfold assign_slice, bind, get. cbn.
    destruct (decide (c < length (slice_heap st))%nat); [reflexivity | lia]. }
  exists sl'. simpl_state.
  split; [reflexivity |]. split; [now apply list_lookup_insert_eq |].
  do 5 (split; [assumption |]). now repeat split.
Qed.

(** Without a nil check, [addStudentToClass] panics on a nil pointer. *)
Lemma addStudentToClass_nil (rt : runtime) (newStudent : Student) (st : state) :
  addStudentToClass rt None newStudent st = None.
Proof. reflexivity. Qed.




(** ** The performance test *)

Lemma for_lt_invariant (I : state -> Prop) (n : Z) (body : Z -> M unit) (st : state) :
  I st ->
  (forall i st', I st' -> returns (body i) st' (fun _ st'' => I st'')) ->
  returns (for_lt n body) st (fun _ st' => I st').
Proof.
  intros HI Hbody. unfold for_lt.
  eapply returns_mono.
  - apply (returns_loop (fun _ _ st' => I st')); [exact HI |].
    intros k [] st' _ HI'. now apply Hbody.
  - now intros.
Qed.



(** ** The two demonstrations *)



(** ** Every function returns *)

Lemma calculateAverageStack_returns (st : state) (students : slice) :
  (base students + len students <= length (student_heap st))%nat ->
  returns (calculateAverageStack students) st (fun _ st' => st' = st).
Proof.
  intros Hv. unfold calculateAverageStack. apply returns_bind.
  eapply returns_eq.
  { apply (range_Students_fold students
             (fun '(total, count) student =>
                ((total + Grade student)%float, wrap64 (count + 1))));
      [assumption | now intros i x [t c]]. }
  destruct (fold_left _ _ _) as [total count].
  destruct (count =? 0); now eapply returns_eq.
Qed.



(** * Further properties of the three files *)

(** ** types.go *)

Lemma returns_and {A} (m : M A) (st : state) (Q1 Q2 : A -> state -> Prop) :
  returns m st Q1 -> returns m st Q2 -> returns m st (fun a st' => Q1 a st' /\ Q2 a st').
Proof.
  intros (a & st' & H1 & HQ1) (a2 & st2 & H2 & HQ2).
  rewrite H1 in H2. injection H2 as <- <-. now exists a, st'.
Qed.

Lemma returns_value {A} (m : M A) (st : state) (a : A) (Q : state -> Prop) :
  returns m st (fun a' st' => a' = a /\ Q st') -> option_map fst (m st) = Some a.
Proof. intros (a' & st' & -> & -> & _). reflexivity. Qed.

(** X1. On every non-empty slice that lies in the heap the three averages of
    types.go return the same number, the float64 mean of the grades:
    [calculateAverageStack], [calculateAverageHeap] and
    [calculateAverageOptimized] differ on the empty slice only. *)
Theorem averages_agree_on_nonempty_slices (rt : runtime) (st : state)
  (students : slice) :
  valid_slice (student_heap st) students ->
  len students <> 0%nat ->
  Z.of_nat (len students) < 2 ^ 63 ->
  exists avg : float,
    avg = mean_grade (elems (student_heap st) students)
    /\ option_map fst (calculateAverageStack students st) = Some avg
    /\ option_map fst (calculateAverageHeap rt students st) = Some avg
    /\ option_map fst (calculateAverageOptimized rt students st) = Some avg.
Proof.
  intros Hvalid Hne Hint. eexists. split; [reflexivity |]. split; [| split].
  - rewrite (calculateAverageStack_value _ _ Hvalid Hint).
    now destruct (decide (len students = 0%nat)).
  - eapply returns_value, calculateAverageHeap_spec, Hvalid.
  - eapply returns_value, calculateAverageOptimized_spec, Hvalid.
Qed.

Lemma averages_agree_on_nonempty_slices_witness :
  let st := with_student_heap
              [mkStudent 1 "Test1" 85 20; mkStudent 2 "Test2" 90 21;
               mkStudent 3 "Test3" 78 19] init_state in
  exists avg : float,
    avg = mean_grade (elems (student_heap st) (mkSlice 0 3 3))
    /\ option_map fst (calculateAverageStack (mkSlice 0 3 3) st) = Some avg
    /\ option_map fst (calculateAverageHeap sample_runtime (mkSlice 0 3 3) st)
       = Some avg
    /\ option_map fst (calculateAverageOptimized sample_runtime (mkSlice 0 3 3) st)
       = Some avg.
Proof.
  apply averages_agree_on_nonempty_slices.
  - split; cbn; lia.
  - discriminate.
  - cbn. lia.
Defined.

(** The collecting loop from a header with room for every grade: each
    [append] writes in place, so no float64 cell is allocated and the header
    keeps its backing array. *)
Lemma collect_grades_in_place (rt : runtime) (students g0 : slice) (st : state) :
  (base students + len students <= length (student_heap st))%nat ->
  in_heap (float_heap st) g0 ->
  (len g0 + len students <= cap g0)%nat ->
  returns
    (range_Students students
       (fun _ student grades => append_float rt grades (Grade student)) g0) st
    (fun g st' =>
       length (float_heap st') = length (float_heap st)
       /\ base g = base g0 /\ cap g = cap g0
       /\ len g = (len g0 + len students)%nat).
Proof.
  intros Hv [Hin1 Hin2] Hroom. unfold range_Students.
  eapply returns_mono.
  - apply (returns_loop
             (fun k g st' =>
                student_heap st' = student_heap st
                /\ length (float_heap st') = length (float_heap st)
                /\ base g = base g0 /\ cap g = cap g0
                /\ len g = (len g0 + k)%nat)).
    + repeat split. lia.
    + intros k g st' Hk (Hheap & Hlen & Hb & Hc & Hl).
      destruct (lookup_lt_is_Some_2 (student_heap st) (base students + k)%nat
                  ltac:(lia)) as [x Hx].
      apply returns_bind. eapply returns_eq.
      { apply index_Student_eq; [lia | rewrite Hheap; exact Hx]. }
      assert (Hin : in_heap (float_heap st') g) by (split; lia).
      destruct (append_float_spec rt g (Grade x) st' Hin)
        as (heap' & g' & Happ & Hlen' & _ & _ & _ & _ & Hplace & _).
      eapply returns_eq; [exact Happ |].
      destruct Hplace as (Hb' & Hc' & Hl'); [lia |].
      simpl_state. repeat split; lia || congruence.
  - intros g st' (_ & Hlen & Hb & Hc & Hl). now repeat split.
Qed.

(** X2. [calculateAverageHeap] and [calculateAverageOptimized] only
    allocate: on a slice that lies in the heap they return with the Student
    cells, the slice variables, the global, the output and the clock as they
    were, and with every float64 cell that existed still in place, followed
    by the cells they allocated. [calculateAverageOptimized] allocates
    exactly one cell per student, whatever capacity the runtime would
    choose when a backing array grows. *)
Theorem heap_averages_only_allocate (rt : runtime) (st : state) (students : slice) :
  valid_slice (student_heap st) students ->
  returns (calculateAverageHeap rt students) st
    (fun _ st' =>
       same_but_floats st st'
       /\ exists fresh, float_heap st' = float_heap st ++ fresh)
  /\ returns (calculateAverageOptimized rt students) st
       (fun _ st' =>
          same_but_floats st st'
          /\ exists fresh, float_heap st' = float_heap st ++ fresh
                           /\ length fresh = len students).
Proof.
  intros Hvalid. split.
  - eapply returns_mono; [apply calculateAverageHeap_spec, Hvalid |].
    now intros avg st' (_ & Hsame & Hfresh).
  - destruct (valid_slice_in_heap _ _ Hvalid) as [Hv _].
    eapply returns_mono.
    + refine (returns_and _ _ _
               (fun _ st' => length (float_heap st')
                             = (length (float_heap st) + len students)%nat) _ _);
        [apply calculateAverageOptimized_spec, Hvalid |].
      unfold calculateAverageOptimized. apply returns_bind.
      eapply returns_eq; [reflexivity |].
      apply returns_bind. eapply returns_mono.
      * apply collect_grades_in_place; simpl_state; [exact Hv | | lia].
        split; simpl_state; rewrite length_app, length_replicate; lia.
      * intros g st' (Hlen & Hb & Hc & Hl). simpl_state.
        rewrite length_app, length_replicate in Hlen.
        eapply returns_eq; [apply sum_and_divide; split; lia |].
        exact Hlen.
    + intros avg st' ((_ & Hsame & fresh & Hfresh) & Hlen).
      split; [assumption |]. exists fresh. split; [assumption |].
      cbv beta in Hlen. rewrite Hfresh, length_app in Hlen. lia.
Qed.

Lemma heap_averages_only_allocate_witness :
  let st := with_student_heap
              [mkStudent 1 "Test1" 85 20; mkStudent 2 "Test2" 90 21;
               mkStudent 3 "Test3" 78 19] init_state in
  returns (calculateAverageHeap sample_runtime (mkSlice 0 3 3)) st
    (fun _ st' =>
       same_but_floats st st'
       /\ exists fresh, float_heap st' = float_heap st ++ fresh)
  /\ returns (calculateAverageOptimized sample_runtime (mkSlice 0 3 3)) st
       (fun _ st' =>
          same_but_floats st st'
          /\ exists fresh, float_heap st' = float_heap st ++ fresh
                           /\ length fresh = len (mkSlice 0 3 3)).
Proof.
  intros st. apply (heap_averages_only_allocate sample_runtime st (mkSlice 0 3 3)).
  split; cbn; lia.
Defined.

(** X3. [createStudentByValue] gives an Age between 9 and 27: between 18 and 27
    for a non-negative id, and between 9 and 18 for a negative one, where
    Go's remainder is negative or zero. The Age depends on the id only
    through its remainder. *)
Theorem constructed_age_range (id id' : Z) (name : string) (grade : float) :
  9 <= Age (createStudentByValue id name grade) <= 27
  /\ (0 <= id -> 18 <= Age (createStudentByValue id name grade) <= 27)
  /\ (id < 0 -> 9 <= Age (createStudentByValue id name grade) <= 18)
  /\ (Z.rem id 10 = Z.rem id' 10 ->
      Age (createStudentByValue id name grade)
      = Age (createStudentByValue id' name grade))
  /\ ID (createStudentByValue id name grade) = id
  /\ Name (createStudentByValue id name grade) = name
  /\ Grade (createStudentByValue id name grade) = grade.
Proof.
  cbn [createStudentByValue Age ID Name Grade]. rewrite !age_of_id.
  pose proof (rem10_bounds id) as Hb.
  split; [lia |]. split.
  { intros Hid. pose proof (Z.rem_nonneg id 10 ltac:(lia) Hid). lia. }
  split.
  { intros Hid. pose proof (Z.rem_nonpos id 10 ltac:(lia) ltac:(lia)). lia. }
  split; [| now repeat split].
  intros ->. reflexivity.
Qed.

(** ** values-vs-pointers.go *)

(** X4. What the copy of [createStudentCopy] holds: the new name and id
    with the template's Grade and Age. Copying with the template's own name
    and id gives the template back, and a copy of a copy is the copy with
    the last name and id. *)
Theorem createStudentCopy_laws (s : Student) (n1 n2 : string) (i1 i2 : Z) :
  createStudentCopy s n1 i1 = mkStudent i1 n1 (Grade s) (Age s)
  /\ createStudentCopy s (Name s) (ID s) = s
  /\ createStudentCopy (createStudentCopy s n1 i1) n2 i2 = createStudentCopy s n2 i2.
Proof. destruct s as [i n g a]. now repeat split. Qed.

(** X5. [modifyStudentValue] and [modifyStudentPointer] compute the same
    record, Grade 100 and the prefixed name, and both print it; the by-value
    function leaves the caller's cell as it was, the by-pointer function
    stores the record in it. *)
Theorem modifyStudentPointer_stores_what_modifyStudentValue_prints
  (st : state) (l : nat) (s : Student) :
  student_heap st !! l = Some s ->
  exists (s' : Student) (st1 st2 : state),
    s' = mkStudent (ID s) ("Modified " +:+ Name s) 100 (Age s)
    /\ modifyStudentValue s st = Some (tt, st1)
    /\ modifyStudentPointer (Some l) st = Some (tt, st2)
    /\ stdout st1
       = stdout st ++ [Printf "Inside modifyStudentValue: %+v\n" [VStudent s']]
    /\ stdout st2
       = stdout st ++ [Printf "Inside modifyStudentPointer: %+v\n" [VStudent s']]
    /\ student_heap st1 !! l = Some s
    /\ student_heap st2 !! l = Some s'.
Proof.
  intros Hs. eexists _, _, _. split; [reflexivity |].
  split; [reflexivity |].
  split; [apply (modifyStudentPointer_eq _ _ _ Hs) |].
  split; [reflexivity |]. split; [reflexivity |].
  split; [exact Hs |].
  simpl_state. apply list_lookup_insert_eq. now apply lookup_lt_Some in Hs.
Qed.

Lemma modifyStudentPointer_stores_what_modifyStudentValue_prints_witness :
  let st := with_student_heap [mkStudent 3 "Bob" 78 21] init_state in
  exists (s' : Student) (st1 st2 : state),
    s' = mkStudent 3 ("Modified " +:+ "Bob") 100 21
    /\ modifyStudentValue (mkStudent 3 "Bob" 78 21) st = Some (tt, st1)
    /\ modifyStudentPointer (Some 0%nat) st = Some (tt, st2)
    /\ stdout st1
       = stdout st ++ [Printf "Inside modifyStudentValue: %+v\n" [VStudent s']]
    /\ stdout st2
       = stdout st ++ [Printf "Inside modifyStudentPointer: %+v\n" [VStudent s']]
    /\ student_heap st1 !! 0%nat = Some (mkStudent 3 "Bob" 78 21)
    /\ student_heap st2 !! 0%nat = Some s'.
Proof.
  intros st.
  apply (modifyStudentPointer_stores_what_modifyStudentValue_prints
           st 0 (mkStudent 3 "Bob" 78 21)).
  reflexivity.
Defined.

Lemma with_student_heap_id (st : state) : with_student_heap (student_heap st) st = st.
Proof. now destruct st. Qed.

(** X6. Two calls of [updateGradeInPlace] through the same pointer are the
    last one alone, and writing the grade the record already has changes
    nothing, for a pointer that is nil or the address of a cell. *)
Theorem updateGradeInPlace_last_write_wins (st : state) (p : ptr) (g1 g2 : float) :
  valid_ptr st p ->
  (updateGradeInPlace p g1;; updateGradeInPlace p g2) st = updateGradeInPlace p g2 st
  /\ is_Some (updateGradeInPlace p g2 st)
  /\ forall l s, p = Some l -> student_heap st !! l = Some s ->
                 updateGradeInPlace p (Grade s) st = Some (tt, st).
Proof.
  intros Hp. destruct (valid_ptr_cases st p Hp) as [-> | (l & s & -> & Hs)].
  - split; [reflexivity |]. split; [now eexists |]. discriminate.
  - pose proof (lookup_lt_Some _ _ _ Hs) as Hl.
    split; [| split].
    + unfold bind. rewrite (updateGradeInPlace_eq _ _ _ g1 Hs).
      rewrite (updateGradeInPlace_eq _ _ (set_Grade g1 s) g2)
        by (simpl_state; now apply list_lookup_insert_eq).
      rewrite (updateGradeInPlace_eq _ _ _ g2 Hs).
      unfold with_student_heap. cbn. now rewrite list_insert_insert_eq.
    + rewrite (updateGradeInPlace_eq _ _ _ g2 Hs). now eexists.
    + intros l' s' [= <-] Hs'. rewrite (updateGradeInPlace_eq _ _ _ _ Hs').
      replace (set_Grade (Grade s') s') with s' by now destruct s'.
      now rewrite list_insert_id, with_student_heap_id.
Qed.

Lemma updateGradeInPlace_last_write_wins_witness :
  let st := with_student_heap [mkStudent 1 "Alice" 85 20] init_state in
  (updateGradeInPlace (Some 0%nat) 90;; updateGradeInPlace (Some 0%nat) 95) st
  = updateGradeInPlace (Some 0%nat) 95 st
  /\ is_Some (updateGradeInPlace (Some 0%nat) 95 st)
  /\ forall l s, Some 0%nat = Some l -> student_heap st !! l = Some s ->
                 updateGradeInPlace (Some 0%nat) (Grade s) st = Some (tt, st).
Proof.
  intros st. apply (updateGradeInPlace_last_write_wins st (Some 0%nat) 90 95).
  cbn. lia.
Defined.

(** X7. [modifyGradesSlice] writes through the slice it is given: when it
    returns, each element of the caller's slice is 5 more than it was, every
    float64 cell outside the slice and the rest of the memory are unchanged,
    and the raised grades have been printed. *)
Theorem modifyGradesSlice_raises_the_callers_grades (grades : slice) (st : state) :
  (base grades + len grades <= length (float_heap st))%nat ->
  returns (modifyGradesSlice grades) st
    (fun _ st' =>
       elems (float_heap st') grades
       = map (fun x => (x + 5)%float) (elems (float_heap st) grades)
       /\ length (float_heap st') = length (float_heap st)
       /\ (forall j : nat, ~ (base grades <= j < base grades + len grades)%nat ->
             float_heap st' !! j = float_heap st !! j)
       /\ student_heap st' = student_heap st /\ slice_heap st' = slice_heap st
       /\ globalStudent st' = globalStudent st /\ reads st' = reads st
       /\ stdout st'
          = stdout st
            ++ [Printf "Inside modifyGradesSlice: %v\n"
                  [VFloats (map (fun x => (x + 5)%float)
                              (elems (float_heap st) grades))]]).
Proof. apply modifyGradesSlice_spec. Qed.

Lemma modifyGradesSlice_raises_the_callers_grades_witness :
  let grades := mkSlice 1 2 3 in
  let st := with_float_heap [85; 92; 78; 88]%float init_state in
  returns (modifyGradesSlice grades) st
    (fun _ st' =>
       elems (float_heap st') grades
       = map (fun x => (x + 5)%float) (elems (float_heap st) grades)
       /\ length (float_heap st') = length (float_heap st)
       /\ (forall j : nat, ~ (base grades <= j < base grades + len grades)%nat ->
             float_heap st' !! j = float_heap st !! j)
       /\ student_heap st' = student_heap st /\ slice_heap st' = slice_heap st
       /\ globalStudent st' = globalStudent st /\ reads st' = reads st
       /\ stdout st'
          = stdout st
            ++ [Printf "Inside modifyGradesSlice: %v\n"
                  [VFloats (map (fun x => (x + 5)%float)
                              (elems (float_heap st) grades))]]).
Proof.
  intros grades st. apply (modifyGradesSlice_raises_the_callers_grades grades st).
  cbn. lia.
Defined.

(** X8. [addStudentToClass] through a pointer to a slice variable: the
    variable receives a header with one element more, whose elements are
    the old ones followed by the new student, whatever capacity the runtime
    chooses; no Student cell is lost, and the only old cell that can change
    is the one just past the old length, when the old header had capacity
    left. The function has no nil check: on a nil pointer it panics. *)
Theorem addStudentToClass_appends_to_the_callers_slice
  (rt : runtime) (c : nat) (sl : slice) (newStudent : Student) (st : state) :
  slice_heap st !! c = Some sl ->
  in_heap (student_heap st) sl ->
  returns (addStudentToClass rt (Some c) newStudent) st
    (fun _ st' =>
       exists sl',
         slice_heap st' = <[c := sl']> (slice_heap st)
         /\ slice_heap st' !! c = Some sl'
         /\ len sl' = S (len sl)
         /\ elems (student_heap st') sl'
            = elems (student_heap st) sl ++ [newStudent]
         /\ in_heap (student_heap st') sl'
         /\ (length (student_heap st) <= length (student_heap st'))%nat
         /\ (forall i : nat, (i < length (student_heap st))%nat ->
               ~ ((len sl < cap sl)%nat /\ i = (base sl + len sl)%nat) ->
               student_heap st' !! i = student_heap st !! i)
         /\ float_heap st' = float_heap st /\ globalStudent st' = globalStudent st
         /\ stdout st' = stdout st /\ reads st' = reads st)
  /\ addStudentToClass rt None newStudent st = None.
Proof.
  intros Hc Hin. split; [now apply addStudentToClass_spec | reflexivity].
Qed.

Lemma addStudentToClass_appends_to_the_callers_slice_witness :
  let sl := mkSlice 0 1 1 in
  let newStudent := mkStudent 2 "Diana" 91 20 in
  let st := with_slice_heap [sl]
              (with_student_heap [mkStudent 1 "Charlie" 82 19] init_state) in
  returns (addStudentToClass sample_runtime (Some 0%nat) newStudent) st
    (fun _ st' =>
       exists sl',
         slice_heap st' = <[0%nat := sl']> (slice_heap st)
         /\ slice_heap st' !! 0%nat = Some sl'
         /\ len sl' = S (len sl)
         /\ elems (student_heap st') sl'
            = elems (student_heap st) sl ++ [newStudent]
         /\ in_heap (student_heap st') sl'
         /\ (length (student_heap st) <= length (student_heap st'))%nat
         /\ (forall i : nat, (i < length (student_heap st))%nat ->
               ~ ((len sl < cap sl)%nat /\ i = (base sl + len sl)%nat) ->
               student_heap st' !! i = student_heap st !! i)
         /\ float_heap st' = float_heap st /\ globalStudent st' = globalStudent st
         /\ stdout st' = stdout st /\ reads st' = reads st)
  /\ addStudentToClass sample_runtime None newStudent st = None.
Proof.
  intros sl newStudent st.
  apply (addStudentToClass_appends_to_the_callers_slice
           sample_runtime 0 sl newStudent st).
  - reflexivity.
  - split; cbn; lia.
Defined.

(** ** escape-analysis.go *)

(** X9. The two averages of escape-analysis.go have no guard for the empty
    slice: on every slice that lies in the heap both return the float64
    mean of the grades, which on the empty slice is 0/0, not the 0 that
    [calculateAverageStack] of types.go returns there. Neither changes a
    Student cell. *)
Theorem escape_analysis_averages_have_no_guard (rt : runtime) (st : state)
  (students : slice) :
  valid_slice (student_heap st) students ->
  exists avg : float,
    avg = mean_grade (elems (student_heap st) students)
    /\ calculateAverageStacks students st = Some (avg, st)
    /\ returns (calculateAverageHeaps rt students) st
         (fun a st' => a = avg /\ same_but_floats st st')
    /\ (len students = 0%nat -> avg = nan).
Proof.
  intros Hvalid. destruct (valid_slice_in_heap _ _ Hvalid) as [Hv _].
  eexists. split; [reflexivity |]. split; [| split].
  - now apply calculateAverageStacks_value.
  - eapply returns_mono; [apply (calculateAverageHeap_spec rt), Hvalid |].
    now intros a st' (-> & Hsame & _).
  - intros H0. now rewrite elems_len_0.
Qed.

Lemma escape_analysis_averages_have_no_guard_witness :
  let st := with_student_heap
              [mkStudent 1 "Test1" 85 20; mkStudent 2 "Test2" 90 21] init_state in
  exists avg : float,
    avg = mean_grade (elems (student_heap st) (mkSlice 0 2 2))
    /\ calculateAverageStacks (mkSlice 0 2 2) st = Some (avg, st)
    /\ returns (calculateAverageHeaps sample_runtime (mkSlice 0 2 2)) st
         (fun a st' => a = avg /\ same_but_floats st st')
    /\ (len (mkSlice 0 2 2) = 0%nat -> avg = nan).
Proof.
  intros st.
  apply (escape_analysis_averages_have_no_guard sample_runtime st (mkSlice 0 2 2)).
  split; cbn; lia.
Defined.

Lemma new_Student_allocated (s : Student) (st : state) :
  allocated st s (Some (length (student_heap st)))
    (with_student_heap (student_heap st ++ [s]) st).
Proof.
  unfold allocated. cbn [valid_ptr]. simpl_state.
  split; [lia |]. split; [rewrite length_app; cbn; lia |].
  split. { eexists. split; [reflexivity |]. now apply list_lookup_middle. }
  split. { intros l' s' H. now apply lookup_app_l_Some. }
  split. { rewrite length_app. cbn. lia. }
  now repeat split.
Qed.

(** X10. The functions that return or store the address of a local hand
    out a fresh cell: [createStudentByPointer], [escapesToHeap1] and
    [escapesToHeap4] return from every state with a non-nil pointer to a
    cell that did not exist before and holds the record, and every record
    that existed is still there; so two calls never return the same
    pointer. [escapesToHeap4] stores the pointer in [globalStudent], the
    other two leave the global as it was. [staysOnStack2], which returns
    its local by value, allocates nothing: it returns the state it was
    given. *)
Theorem escaping_locals_get_fresh_cells (st : state) (id : Z) (name : string)
  (grade : float) :
  returns (createStudentByPointer id name grade) st
    (fun p st' => allocated st (createStudentByValue id name grade) p st'
                  /\ globalStudent st' = globalStudent st)
  /\ returns escapesToHeap1 st
       (fun p st' => allocated st (mkStudent 4 "Diana" 95 20) p st'
                     /\ globalStudent st' = globalStudent st)
  /\ returns escapesToHeap4 st
       (fun _ st' => allocated st (mkStudent 6 "Frank" 82 23) (globalStudent st') st')
  /\ returns (do p1 <- escapesToHeap1; do p2 <- escapesToHeap1; ret (p1, p2)) st
       (fun r _ => r.1 <> r.2 /\ r.1 <> None /\ r.2 <> None)
  /\ staysOnStack2 st = Some (mkStudent 2 "Bob" 92 19, st).
Proof.
  split; [| split; [| split; [| split; [| reflexivity]]]].
  - eapply returns_eq; [reflexivity |].
    split; [apply new_Student_allocated | reflexivity].
  - eapply returns_eq; [reflexivity |].
    split; [apply new_Student_allocated | reflexivity].
  - eapply returns_eq; [reflexivity |].
    apply (new_Student_allocated (mkStudent 6 "Frank" 82 23) st).
  - eapply returns_eq; [reflexivity |]. cbn [fst snd]. simpl_state.
    rewrite length_app. cbn [length].
    split; [| split]; intros [=]. lia.
Qed.




(** ** What the examples print *)












(** X15. The examples of escape-analysis.go that allocate no cell only
    print: [staysOnStack1], [staysOnStack3], [escapesToHeap2] and
    [escapesToHeap3] return from every state with the memory they were
    given and one or two lines more on the output. [staysOnStack3] prints
    the copy that [processStudent] changed with Grade 88 and then the
    original with Grade 78; the first element of the large array of
    [escapesToHeap3] is 42. *)
Theorem stack_examples_only_print (st : state) :
  staysOnStack1 st
  = Some (tt, with_stdout
                (stdout st
                 ++ [Printf "Student %s has grade %.1f\n" [VStr "Alice"; VFloat 85.5]])
                st)
  /\ staysOnStack3 st
     = Some (tt, with_stdout
                   (stdout st
                    ++ [Printf "Inside function (copy): %+v\n"
                          [VStudent (mkStudent 3 "Charlie" 88 21)];
                        Printf "Original student unchanged: %+v\n"
                          [VStudent (mkStudent 3 "Charlie" 78 21)]])
                   st)
  /\ escapesToHeap2 st
     = Some (tt, with_stdout
                   (stdout st
                    ++ [Println [VStr "Student via fmt.Println:";
                                 VStudent (mkStudent 5 "Eve" 88 22)]])
                   st)
  /\ escapesToHeap3 st
     = Some (tt, with_stdout
                   (stdout st ++ [Printf "Large data first element: %d\n" [VInt 42]])
                   st).
Proof.
  split; [reflexivity |]. split.
  { unfold staysOnStack3, processStudent, printf, bind. cbv zeta.
    unfold with_stdout. cbn. now rewrite <- app_assoc. }
  split; [reflexivity |]. apply escapesToHeap3_eq.
Qed.

(** ** The performance test *)

Lemma same_but_floats_state (s0 st' : state) (fresh : list float) :
  same_but_floats s0 st' -> float_heap st' = float_heap s0 ++ fresh ->
  st' = with_float_heap (float_heap s0 ++ fresh) s0.
Proof.
  destruct s0, st'. unfold same_but_floats, with_float_heap. cbn.
  intros (-> & -> & -> & -> & ->) ->. reflexivity.
Qed.

(** The loop that fills the test data. *)
Lemma fill_loop_eq (f : nat -> Student) (n : nat) (st : state) :
  loop n 0
    (fun i _ => update_Student (mkSlice (length (student_heap st)) n n) i (f i)) tt
    (with_student_heap (student_heap st ++ replicate n zero_Student) st)
  = Some (tt, with_student_heap (student_heap st ++ map f (seq 0 n)) st).
Proof.
  set (sl := mkSlice (length (student_heap st)) n n).
  destruct (returns_loop
              (fun k (_ : unit) st' =>
                 st' = with_student_heap
                         (student_heap st ++ map f (seq 0 k)
                          ++ replicate (n - k) zero_Student) st)
              n 0 (fun i _ => update_Student sl i (f i)) tt
              (with_student_heap (student_heap st ++ replicate n zero_Student) st))
    as ([] & st' & Hrun & Hst').
  - cbn [seq map app]. now rewrite Nat.sub_0_r.
  - intros k [] st' Hk ->. eapply returns_eq.
    { unfold update_Student, bind, get, lift, put, update_cells. simpl_state.
      case_decide as Hk'; [| subst sl; cbn [len] in Hk'; lia].
      case_decide as Hn; [reflexivity |].
      exfalso. apply Hn. subst sl. cbn [base].
      rewrite !length_app, length_map, length_seq, length_replicate. lia. }
    subst sl. unfold with_student_heap.
    cbn [student_heap float_heap slice_heap globalStudent stdout reads base].
    f_equal.
    replace (n - k)%nat with (S (n - S k)) by lia.
    rewrite insert_app_r.
    replace k with (length (map f (seq 0 k)) + 0)%nat at 1
      by (rewrite length_map, length_seq; lia).
    rewrite insert_app_r. cbn [replicate insert list_insert].
    rewrite seq_S, map_app, <- app_assoc. reflexivity.
  - rewrite Hrun, Hst'. cbn [Nat.add]. rewrite Nat.sub_diag. cbn [replicate].
    now rewrite app_nil_r.
Qed.

(** One timed loop of [runPerformanceTest]: 50000 calls of an average that
    at most allocates float64 cells. *)
Lemma timed_loop (average : slice -> M float) (students : slice) (s0 : state) :
  valid_slice (student_heap s0) students ->
  (forall st', student_heap st' = student_heap s0 ->
     returns (average students) st'
       (fun _ st'' => same_but_floats st' st''
                      /\ exists fresh, float_heap st'' = float_heap st' ++ fresh)) ->
  returns (for_lt iterations (fun _ => do _ <- average students; ret tt)) s0
    (fun _ st' => exists fresh, st' = with_float_heap (float_heap s0 ++ fresh) s0).
Proof.
  intros Hvalid Hbody.
  eapply returns_mono.
  - apply (for_lt_invariant
             (fun st' => exists fresh,
                  st' = with_float_heap (float_heap s0 ++ fresh) s0)).
    + exists []. rewrite app_nil_r. now destruct s0.
    + intros i st' (fresh & ->). apply returns_bind.
      eapply returns_mono; [apply Hbody; reflexivity |].
      intros avg st'' (Hsame & fresh' & Hfl). apply returns_ret.
      exists (fresh ++ fresh').
      rewrite (same_but_floats_state _ _ _ Hsame Hfl). simpl_state.
      unfold with_float_heap. cbn. now rewrite app_assoc.
  - now intros.
Qed.

Lemma runPerformanceTest_spec (rt : runtime) (st : state) :
  returns (runPerformanceTest rt) st
    (fun _ st' =>
       student_heap st' = student_heap st ++ map test_student (seq 0 100)
       /\ (exists fresh, float_heap st' = float_heap st ++ fresh)
       /\ slice_heap st' = slice_heap st
       /\ globalStudent st' = globalStudent st
       /\ reads st' = (12 + reads st)%nat
       /\ stdout st'
          = stdout st
            ++ performance_output
                 (duration rt (reads st)) (bytes_allocated rt (reads st))
                 (duration rt (4 + reads st)) (bytes_allocated rt (4 + reads st))
                 (duration rt (8 + reads st)) (bytes_allocated rt (8 + reads st))).
Proof.
  unfold runPerformanceTest.
  apply returns_bind. eapply returns_eq; [reflexivity |].
  set (students := mkSlice (length (student_heap st)) 100 100).
  apply returns_bind.
  eapply returns_eq; [apply (fill_loop_eq test_student 100 st) |].
  assert (Hvalid : forall s : state,
             student_heap s = student_heap st ++ map test_student (seq 0 100) ->
             valid_slice (student_heap s) students).
  { intros s ->. split; cbn [base len cap students]; [lia |].
    rewrite length_app, length_map, length_seq. lia. }
  run_heap.
  (* stack approach *)
  eapply returns_mono.
  { apply (timed_loop calculateAverageStack students); [now apply Hvalid |].
    intros st' Hst'. eapply returns_mono.
    - apply calculateAverageStack_returns.
      destruct (Hvalid st' ltac:(now rewrite Hst')) as [? ?]. lia.
    - intros avg st'' ->. split; [now repeat split |].
      exists []. now rewrite app_nil_r. }
  intros [] st2 (fresh2 & ->). run_heap.
  (* heap approach *)
  eapply returns_mono.
  { apply (timed_loop (calculateAverageHeap rt) students); [now apply Hvalid |].
    intros st' Hst'. eapply returns_mono.
    - apply (calculateAverageHeap_spec rt). apply Hvalid. now rewrite Hst'.
    - now intros avg st'' (_ & Hsame & Hfresh). }
  intros [] st3 (fresh3 & ->). run_heap.
  (* optimized approach *)
  eapply returns_mono.
  { apply (timed_loop (calculateAverageOptimized rt) students);
      [now apply Hvalid |].
    intros st' Hst'. eapply returns_mono.
    - apply (calculateAverageOptimized_spec rt). apply Hvalid. now rewrite Hst'.
    - now intros avg st'' (_ & Hsame & Hfresh). }
  intros [] st4 (fresh4 & ->). run_heap.
  unfold performance_output, duration, bytes_allocated. cbn [Nat.add].
  repeat first
    [ match goal with
      | |- returns (if ?b then _ else _) _ _ => destruct b
      end
    | progress run_heap ];
    cbv beta; simpl_state; cbn [andb];
    (split; [reflexivity |]);
    (split; [eexists; rewrite <- !app_assoc; reflexivity |]);
    (split; [reflexivity |]); (split; [reflexivity |]); (split; [reflexivity |]);
    rewrite <- !app_assoc; reflexivity.
Qed.

(** X16. [runPerformanceTest] from every state and under every runtime:
    it builds 100 Student cells holding the test data behind the cells
    that existed, which it leaves as they were together with the slice
    variables and the global; the 150000 calls of the three averages only
    allocate float64 cells behind the existing ones; it reads the clock and
    the allocation counter 12 times; and it prints the two header lines,
    the three measurements and then the speed-ups, each of them only when
    the durations it divides by are positive. *)
Theorem runPerformanceTest_measures_and_reports (rt : runtime) (st : state) :
  returns (runPerformanceTest rt) st
    (fun _ st' =>
       student_heap st' = student_heap st ++ map test_student (seq 0 100)
       /\ (exists fresh, float_heap st' = float_heap st ++ fresh)
       /\ slice_heap st' = slice_heap st
       /\ globalStudent st' = globalStudent st
       /\ reads st' = (12 + reads st)%nat
       /\ stdout st'
          = stdout st
            ++ performance_output
                 (duration rt (reads st)) (bytes_allocated rt (reads st))
                 (duration rt (4 + reads st)) (bytes_allocated rt (4 + reads st))
                 (duration rt (8 + reads st)) (bytes_allocated rt (8 + reads st))).
Proof. apply runPerformanceTest_spec. Qed.

Lemma test_grade_range (n : nat) :
  (n < 40)%nat ->
  PrimFloat.leb 60 (60 + float64_of_int (Z.of_nat n)) = true
  /\ PrimFloat.leb (60 + float64_of_int (Z.of_nat n)) 99 = true.
Proof.
  intros Hn.
  do 40 (destruct n as [| n]; [vm_compute; split; reflexivity |]).
  lia.
Qed.

(** X17. The test data of [runPerformanceTest]: the record at index [i]
    has ID [i] (for an index below 2^63), the Age 18 + i mod 10, between
    18 and 27, and a Grade between 60 and 99. *)
Theorem test_data_ranges (i : nat) :
  (Z.of_nat i < 2 ^ 63 -> ID (test_student i) = Z.of_nat i)
  /\ Age (test_student i) = 18 + Z.of_nat i mod 10
  /\ 18 <= Age (test_student i) <= 27
  /\ PrimFloat.leb 60 (Grade (test_student i)) = true
  /\ PrimFloat.leb (Grade (test_student i)) 99 = true.
Proof.
  unfold test_student. cbn [ID Age Grade].
  rewrite !Z.rem_mod_nonneg by lia.
  pose proof (Z.mod_pos_bound (Z.of_nat i) 10 ltac:(lia)) as H10.
  pose proof (Z.mod_pos_bound (Z.of_nat i) 40 ltac:(lia)) as H40.
  rewrite (wrap64_small (18 + _)) by lia.
  split; [intros Hi; apply wrap64_small; lia |].
  split; [reflexivity |]. split; [lia |].
  rewrite <- (Z2Nat.id (Z.of_nat i mod 40)) by lia.
  apply test_grade_range. lia.
Qed.

